(** * PPT KPI Extractor (app.py): a shallow embedding and its properties

    The Python script [app.py] reads slide decks, assembles the text of
    their shapes, searches it with eight regular expressions, turns the
    captured substrings into floats, stacks one row per deck into a table
    and derives three columns.  This file models those functions and the
    Python built-ins they call ([str.strip], [str.join], [str.replace],
    [float], [round], [re.search], float division and multiplication),
    then states and proves the properties of the specification. *)

From Stdlib Require Import ZArith NArith List Bool Lia String Ascii.
From Corelib Require Import SpecFloat.
From stdpp Require Import base option list gmap strings.
Import ListNotations.

Set Default Proof Using "Type".

(* ===================================================================== *)
(** * Part I: definitions                                                *)
(* ===================================================================== *)

(** ** Python strings

    A Python [str] is a sequence of Unicode code points. *)

Module Unicode.

Abbreviation codepoint := N.
Abbreviation str := (list N).

(** An ASCII literal of the source, as code points. *)
Definition of_ascii (s : string) : str :=
  List.map N_of_ascii (list_ascii_of_string s).

(** U+20B9 INDIAN RUPEE SIGN, the one non-ASCII character of app.py. *)
Definition RUPEE : codepoint := 0x20B9%N.

(** [Py_UNICODE_ISSPACE]: the code points CPython treats as whitespace in
    [str.strip], in [float] and in the regular-expression class [\s]. *)
Definition Py_UNICODE_ISSPACE (c : codepoint) : bool :=
  ((0x09 <=? c) && (c <=? 0x0D) || (0x1C <=? c) && (c <=? 0x1F)
   || (c =? 0x20) || (c =? 0x85) || (c =? 0xA0) || (c =? 0x1680)
   || (0x2000 <=? c) && (c <=? 0x200A)
   || (c =? 0x2028) || (c =? 0x2029) || (c =? 0x202F) || (c =? 0x205F)
   || (c =? 0x3000))%N.

(** [Py_ISSPACE]: the ASCII-only whitespace test of the C locale, used by
    [float] once its argument has been brought to ASCII. *)
Definition Py_ISSPACE (c : codepoint) : bool :=
  ((0x09 <=? c) && (c <=? 0x0D) || (c =? 0x20))%N.

Definition is_ascii_digit (c : codepoint) : bool :=
  ((0x30 <=? c) && (c <=? 0x39))%N.

(** The Unicode character database decides which code points are decimal
    digits (category Nd) and what their values are; it grows with every
    Unicode version, so it is an interface here.  Only its ASCII part is
    fixed: the ten digits, and nothing else below U+0080. *)
Class UnicodeData := {
  Py_UNICODE_TODECIMAL : codepoint -> option N;
  todecimal_ascii :
    forall c, (c < 0x80)%N ->
      Py_UNICODE_TODECIMAL c = if is_ascii_digit c then Some (c - 0x30)%N else None;
  todecimal_range :
    forall c d, Py_UNICODE_TODECIMAL c = Some d -> (d < 10)%N;
  todecimal_not_space :
    forall c d, Py_UNICODE_TODECIMAL c = Some d -> Py_UNICODE_ISSPACE c = false
}.

Definition Py_UNICODE_ISDECIMAL `{UnicodeData} (c : codepoint) : bool :=
  match Py_UNICODE_TODECIMAL c with Some _ => true | None => false end.

End Unicode.
Export Unicode.

Module PyStr.

(** Python truthiness of a string: non-empty. *)
Definition truthy (s : str) : bool :=
  match s with [] => false | _ :: _ => true end.

Fixpoint dropwhile (p : codepoint -> bool) (s : str) : str :=
  match s with
  | [] => []
  | c :: s' => if p c then dropwhile p s' else s
  end.

Definition lstrip (s : str) : str := dropwhile Py_UNICODE_ISSPACE s.
Definition rstrip (s : str) : str := rev (dropwhile Py_UNICODE_ISSPACE (rev s)).

(** [s.strip()] *)
Definition strip (s : str) : str := rstrip (lstrip s).

(** [sep.join(parts)] *)
Fixpoint join (sep : str) (parts : list str) : str :=
  match parts with
  | [] => []
  | [p] => p
  | p :: rest => p ++ sep ++ join sep rest
  end.

(** [s.replace(c, "")] for a one-character [c]: every occurrence goes. *)
Definition replace_del (c : codepoint) (s : str) : str :=
  List.filter (fun x => negb (x =? c)%N) s.

(** [s.endswith(suffix)] *)
Definition endswith (s suffix : str) : bool :=
  bool_decide (drop (length s - length suffix) s = suffix).

(** [s.lower()] on the ASCII letters.  No code point outside A-Z has a
    lower-case form that contains one of the characters of ".pptx", the
    only text app.py compares a lowered string with. *)
Definition lower (s : str) : str :=
  List.map (fun c => if ((0x41 <=? c) && (c <=? 0x5A))%N then (c + 0x20)%N else c) s.

Definition SPACE : codepoint := 0x20%N.
Definition PERCENT : codepoint := 0x25%N.
Definition COMMA : codepoint := 0x2C%N.

End PyStr.
Export PyStr.

(** ** Exceptions

    A Python computation returns a value or raises. *)

Module Py.

Inductive exn := ValueError | TypeError | KeyError | PackageNotFoundError | BadZipFile.

Inductive result (A : Type) : Type :=
| Ok (a : A)
| Raise (e : exn).
Arguments Ok {A} a.
Arguments Raise {A} e.

#[export] Instance result_ret : MRet result := fun A a => Ok a.
#[export] Instance result_bind : MBind result := fun A B f m =>
  match m with Ok a => f a | Raise e => Raise e end.

(** [try: body  except Exception: handler] *)
Definition try_except {A} (body : result A) (handler : exn -> result A) : result A :=
  match body with Ok a => Ok a | Raise e => handler e end.

End Py.
Export Py.

(** ** Python floats

    A Python [float] is an IEEE 754 binary64 number; [spec_float] with
    precision 53 and maximal exponent 1024 is the standard model of it. *)

Module PyFloat.

Abbreviation float := spec_float.

Definition prec : Z := 53.
Definition emax : Z := 1024.

(** [x / y] and [x * y] on floats.  (Python raises ZeroDivisionError for a
    zero divisor; app.py divides behind a [!= 0] guard.) *)
Definition fdiv (x y : float) : float := SFdiv prec emax x y.
Definition fmul (x y : float) : float := SFmul prec emax x y.

(** [x != 0]: false on both zeros, true on everything else, NaN included. *)
Definition nonzero (x : float) : bool := negb (SFeqb x (S754_zero false)).

Definition is_nan (x : float) : bool :=
  match x with S754_nan => true | _ => false end.

Definition is_finite (x : float) : bool :=
  match x with S754_zero _ | S754_finite _ _ _ => true | _ => false end.

(** The float nearest to the fraction [n/d] (ties to even), with sign
    [neg]: quotient, remainder position and rounding as in [SFdiv]. *)
Definition float_of_ratio (neg : bool) (n d : positive) : float :=
  let '(q, e, l) := SFdiv_core_binary prec emax (Zpos n) 0 (Zpos d) 0 in
  binary_round_aux prec emax neg q e l.

(** The float nearest to [m * 10^e10]. *)
Definition float_of_decimal (neg : bool) (m : N) (e10 : Z) : float :=
  match m with
  | N0 => S754_zero neg
  | Npos p =>
      if (0 <=? e10)%Z then float_of_ratio neg (p * Z.to_pos (10 ^ e10)) 1
      else float_of_ratio neg p (Z.to_pos (10 ^ (- e10)))
  end.

(** Quotient of [a] by [b] rounded to the nearest integer, ties to even. *)
Definition div_half_even (a b : Z) : Z :=
  let q := (a / b)%Z in
  let r := (a mod b)%Z in
  match (2 * r ?= b)%Z with
  | Lt => q
  | Gt => (q + 1)%Z
  | Eq => if Z.even q then q else (q + 1)%Z
  end.

(** [round(x, 2)].  CPython prints the exact binary value with two
    decimals, correctly rounded ([_Py_dg_dtoa], mode 3), and reads the
    digits back ([_Py_dg_strtod]); zeros, infinities and NaN are returned
    as they are. *)
Definition round2 (x : float) : float :=
  match x with
  | S754_finite s m e =>
      let hundredths :=
        if (0 <=? e)%Z then (100 * Zpos m * 2 ^ e)%Z
        else div_half_even (100 * Zpos m) (2 ^ (- e)) in
      float_of_decimal s (Z.to_N hundredths) (-2)
  | _ => x
  end.

(** *** [float(s)] for a string [s]

    The functions below follow CPython's [PyFloat_FromString] and the
    functions it calls, one definition per C function. *)

Definition QUESTION : codepoint := 0x3F%N.
Definition UNDERSCORE : codepoint := 0x5F%N.
Definition DOT : codepoint := 0x2E%N.
Definition PLUS : codepoint := 0x2B%N.
Definition MINUS : codepoint := 0x2D%N.

Fixpoint takewhile (p : codepoint -> bool) (s : str) : str :=
  match s with
  | [] => []
  | c :: s' => if p c then c :: takewhile p s' else []
  end.

(** Non-ASCII decimal digits become ASCII digits, non-ASCII whitespace a
    space; at any other character from U+007F on the result ends with a
    question mark. *)
Fixpoint transform_decimal_and_space `{UnicodeData} (s : str) : str :=
  match s with
  | [] => []
  | c :: s' =>
      if (c <? 127)%N then c :: transform_decimal_and_space s'
      else if Py_UNICODE_ISSPACE c then SPACE :: transform_decimal_and_space s'
      else match Py_UNICODE_TODECIMAL c with
           | Some d => (0x30 + d)%N :: transform_decimal_and_space s'
           | None => [QUESTION]
           end
  end.

(** [_PyUnicode_TransformDecimalAndSpaceToASCII]: an ASCII string is
    returned as it is. *)
Definition TransformDecimalAndSpaceToASCII `{UnicodeData} (s : str) : str :=
  if forallb (fun c => (c <? 0x80)%N) s then s
  else transform_decimal_and_space s.

(** The loop of [_Py_string_to_number_with_underscores]: an underscore
    must stand between two digits, and is dropped. *)
Fixpoint strip_underscores (prev : codepoint) (s : str) : option str :=
  match s with
  | [] => if (prev =? UNDERSCORE)%N then None else Some []
  | c :: s' =>
      if (c =? UNDERSCORE)%N then
        if is_ascii_digit prev then strip_underscores c s' else None
      else if (prev =? UNDERSCORE)%N && negb (is_ascii_digit c) then None
      else cons c <$> strip_underscores c s'
  end.

(** Value of a string of ASCII digits. *)
Definition decimal_value (ds : str) : N :=
  fold_left (fun acc c => (10 * acc + (c - 0x30))%N) ds 0%N.

Definition parse_sign (s : str) : bool * str :=
  match s with
  | c :: r => if (c =? MINUS)%N then (true, r)
              else if (c =? PLUS)%N then (false, r) else (false, s)
  | [] => (false, [])
  end.

(** The fraction of [_Py_dg_strtod]: a point and the digits after it. *)
Definition parse_fraction (r1 : str) : str * str :=
  match r1 with
  | c :: r' => if (c =? DOT)%N
               then (takewhile is_ascii_digit r', dropwhile is_ascii_digit r')
               else ([], r1)
  | [] => ([], r1)
  end.

(** The exponent of [_Py_dg_strtod]: [e] or [E], an optional sign and at
    least one digit; without a digit the [e] is left unread. *)
Definition parse_exponent (r2 : str) : Z * str :=
  match r2 with
  | c :: r' =>
      if (c =? 0x65)%N || (c =? 0x45)%N then
        let '(eneg, r'') := parse_sign r' in
        match takewhile is_ascii_digit r'' with
        | [] => (0%Z, r2)
        | ed => (if eneg then (- Z.of_N (decimal_value ed))%Z
                 else Z.of_N (decimal_value ed),
                 dropwhile is_ascii_digit r'')
        end
      else (0%Z, r2)
  | [] => (0%Z, r2)
  end.

(** [_Py_dg_strtod]: sign, digits, optional point and digits, optional
    exponent; the value is correctly rounded.  Returns the value and the
    unread rest, or [None] when no digit was read. *)
Definition dg_strtod (s : str) : option (float * str) :=
  let '(neg, r) := parse_sign s in
  let ip := takewhile is_ascii_digit r in
  let '(fp, r2) := parse_fraction (dropwhile is_ascii_digit r) in
  match ip ++ fp with
  | [] => None
  | _ :: _ =>
      let '(e, r3) := parse_exponent r2 in
      Some (float_of_decimal neg (decimal_value (ip ++ fp))
              (e - Z.of_nat (length fp)), r3)
  end.

(** [Py_TOLOWER]: ASCII only. *)
Definition Py_TOLOWER (c : codepoint) : codepoint :=
  if ((0x41 <=? c) && (c <=? 0x5A))%N then (c + 0x20)%N else c.

(** [case_insensitive_match(s, t)] for a lower-case [t]; the rest of [s]
    after [t] when [s] starts with it. *)
Fixpoint case_insensitive_match (s t : str) {struct t} : option str :=
  match t with
  | [] => Some s
  | x :: t' =>
      match s with
      | c :: s' => if (Py_TOLOWER c =? x)%N then case_insensitive_match s' t' else None
      | [] => None
      end
  end.

(** [_Py_parse_inf_or_nan] *)
Definition parse_inf_or_nan (s : str) : option (float * str) :=
  let '(neg, r) := parse_sign s in
  match case_insensitive_match r (of_ascii "inf") with
  | Some r1 =>
      match case_insensitive_match r1 (of_ascii "inity") with
      | Some r2 => Some (S754_infinity neg, r2)
      | None => Some (S754_infinity neg, r1)
      end
  | None =>
      match case_insensitive_match r (of_ascii "nan") with
      | Some r1 => Some (S754_nan, r1)
      | None => None
      end
  end.

(** [_PyOS_ascii_strtod] *)
Definition ascii_strtod (s : str) : option (float * str) :=
  match dg_strtod s with
  | Some r => Some r
  | None => parse_inf_or_nan s
  end.

(** [float_from_string_inner]: ASCII whitespace around the number is
    skipped, and the number has to fill what is left.  Out-of-range
    numbers are not an error: they are infinities or zeros. *)
Definition float_from_string_inner (s : str) : result float :=
  match dropwhile Py_ISSPACE s with
  | [] => Raise ValueError
  | s1 =>
      match ascii_strtod (rev (dropwhile Py_ISSPACE (rev s1))) with
      | Some (x, []) => Ok x
      | _ => Raise ValueError
      end
  end.

(** [PyFloat_FromString], that is [float(s)]. *)
Definition PyFloat_FromString `{UnicodeData} (s : str) : result float :=
  let a := TransformDecimalAndSpaceToASCII s in
  if existsb (fun c => (c =? UNDERSCORE)%N) a then
    match strip_underscores 0%N a with
    | Some t => float_from_string_inner t
    | None => Raise ValueError
    end
  else float_from_string_inner a.

End PyFloat.
Export PyFloat.

(** The Unicode data with the ASCII digits only: the least instance. *)
#[export, refine] Instance ascii_unicode_data : UnicodeData := {
  Py_UNICODE_TODECIMAL c := if is_ascii_digit c then Some (c - 0x30)%N else None
}.
Proof.
  - reflexivity.
  - intros c d. destruct (is_ascii_digit c) eqn:E; intros [= <-].
    apply andb_true_iff in E as [E1%N.leb_le E2%N.leb_le]. lia.
  - intros c d. destruct (is_ascii_digit c) eqn:E; intros [= <-].
    apply andb_true_iff in E as [E1%N.leb_le E2%N.leb_le].
    unfold Py_UNICODE_ISSPACE.
    repeat match goal with
    | |- context [N.leb ?a ?b] => destruct (N.leb_spec a b); try lia
    | |- context [N.eqb ?a ?b] => destruct (N.eqb_spec a b); try lia
    end; reflexivity.
Defined.

(** ** Slide decks as python-pptx exposes them *)

(** A run; [run.text] is a string, and app.py guards against [None]. *)
Record Run := { run_text : option str }.

Record Paragraph := { runs : list Run }.

(** A shape.  [has_text_frame] is [None] when the object has no such
    attribute ([hasattr] is false), else the attribute's value. *)
Record Shape := {
  has_text_frame : option bool;
  paragraphs : list Paragraph
}.

Record Slide := { shapes : list Shape }.
Record Presentation := { slides : list Slide }.

(** [extract_runs_text(shape)], app.py lines 26-35.  The two [for] loops
    thread the list [parts], to which [append] adds at the end. *)
Definition extract_runs_text (shape : Shape) : str :=
  let parts :=
    if bool_decide (has_text_frame shape = Some true) then
      fold_left (fun parts para =>
        fold_left (fun parts run =>
          let t := strip (default [] (run_text run)) in
          if truthy t then parts ++ [t] else parts)
          (runs para) parts)
        (paragraphs shape) []
    else [] in
  strip (join [SPACE] parts).

(** ** Regular expressions

    The eight patterns of app.py use literals, greedy [*] and [+] over
    one-character classes, and one capturing group, under [re.I].  The
    matcher below is the backtracking search of Python's [re] on that
    fragment: leftmost start, longest repetition first. *)

Module Re.

(** Members of a character class [[...]]. *)
Inductive member :=
| MChar (c : codepoint)
| MSpace                          (* \s *)
| MDigit.                         (* \d *)

(** What matches one character. *)
Inductive single :=
| Lit (c : codepoint)             (* a literal, case ignored *)
| In (ms : list member)           (* a class with no cased member *)
| InIgnore (ms : list member)     (* a class with cased members, case ignored *)
| NotIn (ms : list member).       (* a negated class with no cased member *)

Inductive item :=
| One (x : single)
| Star (x : single)               (* x* *)
| Open                            (* ( *)
| Close.                          (* ) *)

(** [x+] is [x] followed by [x*]. *)
Definition plus (x : single) : list item := [One x; Star x].

(** The simple lower-case mapping, given on the code points whose lower
    case is an ASCII letter (A-Z, U+0130 and U+212A); the patterns compare
    its result with ASCII letters and with uncased characters only. *)
Definition sre_lower (c : codepoint) : codepoint :=
  if ((0x41 <=? c) && (c <=? 0x5A))%N then (c + 0x20)%N
  else if (c =? 0x130)%N then 0x69%N
  else if (c =? 0x212A)%N then 0x6B%N
  else c.

(** The extra equivalences of [re.I]: i with dotless i, s with long s. *)
Definition ignorecase_fixes (lo : codepoint) : list codepoint :=
  if (lo =? 0x69)%N then [0x131%N]
  else if (lo =? 0x73)%N then [0x17F%N]
  else [].

Definition in_members `{UnicodeData} (ms : list member) (c : codepoint) : bool :=
  existsb (fun m => match m with
                    | MChar x => (c =? x)%N
                    | MSpace => Py_UNICODE_ISSPACE c
                    | MDigit => Py_UNICODE_ISDECIMAL c
                    end) ms.

Definition lower_members (ms : list member) : list member :=
  flat_map (fun m => match m with
                     | MChar x => MChar (sre_lower x)
                                  :: List.map MChar (ignorecase_fixes (sre_lower x))
                     | _ => [m]
                     end) ms.

Definition match_single `{UnicodeData} (x : single) (c : codepoint) : bool :=
  match x with
  | Lit p => let lo := sre_lower p in
             let l := sre_lower c in
             (l =? lo)%N || existsb (N.eqb l) (ignorecase_fixes lo)
  | In ms => in_members ms c
  | InIgnore ms => in_members (lower_members ms) (sre_lower c)
  | NotIn ms => negb (in_members ms c)
  end.

(** Match the items at the start of [s].  [rec] tells whether the group
    is open, [acc] holds the characters captured so far, last first.  The
    result is the text of group 1. *)
Fixpoint match_here `{UnicodeData} (its : list item) (s : str) (rec : bool) (acc : str)
  {struct its} : option str :=
  match its with
  | [] => Some (rev acc)
  | One x :: r =>
      match s with
      | c :: s' => if match_single x c
                   then match_here r s' rec (if rec then c :: acc else acc)
                   else None
      | [] => None
      end
  | Star x :: r =>
      (fix star (s : str) (acc : str) {struct s} : option str :=
         match s with
         | c :: s' =>
             if match_single x c then
               match star s' (if rec then c :: acc else acc) with
               | Some g => Some g
               | None => match_here r s rec acc
               end
             else match_here r s rec acc
         | [] => match_here r s rec acc
         end) s acc
  | Open :: r => match_here r s true acc
  | Close :: r => match_here r s false acc
  end.

(** [pattern.search(s)], then [m.group(1)]; [None] when nothing matches. *)
Fixpoint search `{UnicodeData} (its : list item) (s : str) : option str :=
  match match_here its s false [] with
  | Some g => Some g
  | None => match s with
            | [] => None
            | _ :: s' => search its s'
            end
  end.

Definition lits (s : string) : list item := List.map (fun c => One (Lit c)) (of_ascii s).

Definition COLON : codepoint := 0x3A%N.
Definition LPAREN : codepoint := 0x28%N.
Definition RPAREN : codepoint := 0x29%N.
Definition LETTER_R : codepoint := 0x52%N.
Definition LETTER_s : codepoint := 0x73%N.

(** [\s*], [[:\s]*], [[₹Rs\.\s]*], [([\d\.]+%)] and [([\d,]+)] *)
Definition spaces : list item := [Star (In [MSpace])].
Definition colon_spaces : list item := [Star (In [MChar COLON; MSpace])].
Definition currency_marker : list item :=
  [Star (InIgnore [MChar RUPEE; MChar LETTER_R; MChar LETTER_s; MChar DOT; MSpace])].
Definition percent_group : list item :=
  [Open] ++ plus (In [MDigit; MChar DOT]) ++ [One (Lit PERCENT); Close].
Definition amount_group : list item :=
  [Open] ++ plus (In [MDigit; MChar COMMA]) ++ [Close].

End Re.
Export Re.

(** ** app.py *)

(** [PATTERNS], lines 13-23, in the order of the dict. *)
Definition PATTERNS : list (string * list item) := [
  ("Achievement Rate",
     lits "Achievement" ++ spaces ++ lits "Rate" ++ colon_spaces ++ percent_group);
  ("Revenue Target",
     lits "Revenue" ++ spaces ++ lits "Target" ++ colon_spaces ++ currency_marker
     ++ amount_group);
  ("Achieved",
     lits "Achieved" ++ colon_spaces ++ currency_marker ++ amount_group);
  ("Revenue Reached",
     lits "revenue" ++ spaces ++ lits "reached" ++ spaces ++ currency_marker
     ++ amount_group);
  ("Target Of",
     lits "against" ++ spaces ++ lits "a" ++ spaces ++ lits "target" ++ spaces
     ++ lits "of" ++ spaces ++ currency_marker ++ amount_group);
  ("Revenue %",
     lits "against" ++ spaces ++ lits "a" ++ spaces ++ lits "target" ++ spaces
     ++ lits "of" ++ spaces ++ currency_marker ++ plus (NotIn [MChar LPAREN])
     ++ [One (Lit LPAREN)] ++ percent_group ++ [One (Lit RPAREN)]);
  ("Quality Score",
     lits "Quality" ++ spaces ++ lits "score" ++ spaces ++ lits "was" ++ spaces
     ++ percent_group);
  ("Quality Score (alt)",
     lits "Quality" ++ spaces ++ lits "Score" ++ colon_spaces ++ percent_group)
].

(** Truthiness of [val]: [None] and the empty string are false. *)
Definition truthy_opt (val : option str) : bool :=
  match val with Some s => truthy s | None => false end.

(** [parse_percent(val)], lines 38-44. *)
Definition parse_percent `{UnicodeData} (val : option str) : result (option float) :=
  if negb (truthy_opt val) then Ok None
  else
    try_except
      (x ← PyFloat_FromString (strip (replace_del PERCENT (default [] val)));
       Ok (Some x))
      (fun _ => Ok None).

(** [parse_currency(val)], lines 47-53. *)
Definition parse_currency `{UnicodeData} (val : option str) : result (option float) :=
  if negb (truthy_opt val) then Ok None
  else
    try_except
      (x ← PyFloat_FromString
             (replace_del SPACE (replace_del COMMA (default [] val)));
       Ok (Some x))
      (fun _ => Ok None).

(** [extract_kpis_from_text(full_text)], lines 56-67. *)
Definition extract_kpis_from_text `{UnicodeData} (full_text : str) : gmap string str :=
  let data :=
    fold_left (fun (data : gmap string str) kp =>
                 match search (snd kp) full_text with
                 | Some g => <[fst kp := g]> data
                 | None => data
                 end) PATTERNS ∅ in
  let data :=
    match data !! "Quality Score", data !! "Quality Score (alt)" with
    | None, Some alt => <["Quality Score" := alt]> data
    | _, _ => data
    end in
  delete "Quality Score (alt)" data.

(** The bytes of a file as [pptx.Presentation] sees them: a deck, or
    something the constructor (or the read before it) raises on. *)
Inductive bytes :=
| Pptx (prs : Presentation)
| Garbage.

(** [Presentation(io.BytesIO(ppt_bytes))] *)
Definition load_presentation (ppt_bytes : bytes) : result Presentation :=
  match ppt_bytes with
  | Pptx prs => Ok prs
  | Garbage => Raise PackageNotFoundError
  end.

(** The dict built by [process_pptx_bytes]: the file name and seven
    values, each a float or [None]. *)
Record KPIRow := {
  PPT_File : str;
  Achievement_Rate : option float;
  Revenue_Target : option float;
  Achieved : option float;
  Revenue_Reached : option float;
  Target_Of : option float;
  Revenue_Pct : option float;
  Quality_Score : option float
}.

(** The text of a deck: lines 72-78 of [process_pptx_bytes]. *)
Definition full_text_of (prs : Presentation) : str :=
  let texts :=
    fold_left (fun texts slide =>
      fold_left (fun texts shape =>
        let txt := extract_runs_text shape in
        if truthy txt then texts ++ [txt] else texts)
        (shapes slide) texts)
      (slides prs) [] in
  join [SPACE] texts.

(** [process_pptx_bytes(ppt_bytes, filename)], lines 70-90. *)
Definition process_pptx_bytes `{UnicodeData} (ppt_bytes : bytes) (filename : str)
  : result KPIRow :=
  prs ← load_presentation ppt_bytes;
  let kpis := extract_kpis_from_text (full_text_of prs) in
  achievement_rate ← parse_percent (kpis !! "Achievement Rate");
  revenue_target ← parse_currency (kpis !! "Revenue Target");
  achieved ← parse_currency (kpis !! "Achieved");
  revenue_reached ← parse_currency (kpis !! "Revenue Reached");
  target_of ← parse_currency (kpis !! "Target Of");
  revenue_pct ← parse_percent (kpis !! "Revenue %");
  quality_score ← parse_percent (kpis !! "Quality Score");
  Ok {| PPT_File := filename;
        Achievement_Rate := achievement_rate;
        Revenue_Target := revenue_target;
        Achieved := achieved;
        Revenue_Reached := revenue_reached;
        Target_Of := target_of;
        Revenue_Pct := revenue_pct;
        Quality_Score := quality_score |}.

(** ** The batch: lines 106-131 *)

(** A file of the multi-file uploader. *)
Record UploadedFile := { name : str; read : bytes }.

(** The archive upload as [zipfile.ZipFile] sees it: its entries in
    listing order, or something the constructor raises on. *)
Inductive zip_upload :=
| Zip (entries : list (str * bytes))
| NotAZip.

Definition namelist (entries : list (str * bytes)) : list str := List.map fst entries.

(** [zf.read(name)]: [ZipFile] keeps a dict from names to entries that is
    filled in listing order, so of several entries with one name the last
    is read. *)
Definition zf_read (entries : list (str * bytes)) (nm : str) : bytes :=
  fold_left (fun found e => if bool_decide (fst e = nm) then snd e else found)
    entries Garbage.

(** What the script shows besides the table. *)
Inductive message :=
| warning_failed (nm : str)            (* st.warning, line 117 *)
| warning_failed_zip (nm : str)        (* st.warning, line 129 *)
| error_zip                            (* st.error, line 131 *)
| info_no_files.                       (* st.info, line 134 *)

(** The variables of the loops. *)
Record state := {
  rows : list KPIRow;
  seen : gset str;
  log : list message
}.

Definition init : state := {| rows := []; seen := ∅; log := [] |}.

(** The body of the loop over the uploaded decks, lines 113-117. *)
Definition upload_step `{UnicodeData} (st : state) (f : UploadedFile) : state :=
  match process_pptx_bytes (read f) (name f) with
  | Ok row => {| rows := rows st ++ [row];
                 seen := {[ name f ]} ∪ seen st;
                 log := log st |}
  | Raise _ => {| rows := rows st;
                  seen := seen st;
                  log := log st ++ [warning_failed (name f)] |}
  end.

Definition is_pptx_name (nm : str) : bool := endswith (lower nm) (of_ascii ".pptx").

(** The body of the loop over the archive's names, lines 124-129. *)
Definition zip_step `{UnicodeData} (entries : list (str * bytes)) (st : state) (nm : str)
  : state :=
  if is_pptx_name nm && negb (bool_decide (nm ∈ seen st)) then
    match process_pptx_bytes (zf_read entries nm) nm with
    | Ok row => {| rows := rows st ++ [row];
                   seen := {[ nm ]} ∪ seen st;
                   log := log st |}
    | Raise _ => {| rows := rows st;
                    seen := seen st;
                    log := log st ++ [warning_failed_zip nm] |}
    end
  else st.

(** Lines 107-131: the decks first, then the archive. *)
Definition process_files `{UnicodeData} (uploaded_ppts : list UploadedFile)
  (uploaded_zip : option zip_upload) : state :=
  let st := fold_left upload_step uploaded_ppts init in
  match uploaded_zip with
  | None => st
  | Some NotAZip => {| rows := rows st; seen := seen st; log := log st ++ [error_zip] |}
  | Some (Zip entries) => fold_left (zip_step entries) (namelist entries) st
  end.

(** ** The table: lines 136-161 *)

(** A row of the data frame: the eight columns of [KPIRow] and, once they
    are assigned, the two derived ones.  A value is a float or missing;
    pandas keeps a missing value as [None] or as NaN. *)
Record DFRow := {
  df_PPT_File : str;
  df_Achievement_Rate : option float;
  df_Revenue_Target : option float;
  df_Achieved : option float;
  df_Revenue_Reached : option float;
  df_Target_Of : option float;
  df_Revenue_Pct : option float;
  df_Quality_Score : option float;
  df_Best_Achieved : option (option float);   (* [None]: no such column *)
  df_Best_Target : option (option float)      (* [None]: no such column *)
}.

(** [pd.DataFrame(rows)] *)
Definition DataFrame (rows : list KPIRow) : list DFRow :=
  List.map (fun r => {| df_PPT_File := PPT_File r;
                        df_Achievement_Rate := Achievement_Rate r;
                        df_Revenue_Target := Revenue_Target r;
                        df_Achieved := Achieved r;
                        df_Revenue_Reached := Revenue_Reached r;
                        df_Target_Of := Target_Of r;
                        df_Revenue_Pct := Revenue_Pct r;
                        df_Quality_Score := Quality_Score r;
                        df_Best_Achieved := None;
                        df_Best_Target := None |}) rows.

(** [pd.notnull(v)] *)
Definition notnull (v : option float) : bool :=
  match v with
  | Some x => negb (is_nan x)
  | None => false
  end.

(** [row[column]] for a derived column: KeyError when it is not there. *)
Definition getitem (column : option (option float)) : result (option float) :=
  match column with
  | Some v => Ok v
  | None => Raise KeyError
  end.

Definition set_Best_Achieved (v : option float) (r : DFRow) : DFRow :=
  {| df_PPT_File := df_PPT_File r;
     df_Achievement_Rate := df_Achievement_Rate r;
     df_Revenue_Target := df_Revenue_Target r;
     df_Achieved := df_Achieved r;
     df_Revenue_Reached := df_Revenue_Reached r;
     df_Target_Of := df_Target_Of r;
     df_Revenue_Pct := df_Revenue_Pct r;
     df_Quality_Score := df_Quality_Score r;
     df_Best_Achieved := Some v;
     df_Best_Target := df_Best_Target r |}.

Definition set_Best_Target (v : option float) (r : DFRow) : DFRow :=
  {| df_PPT_File := df_PPT_File r;
     df_Achievement_Rate := df_Achievement_Rate r;
     df_Revenue_Target := df_Revenue_Target r;
     df_Achieved := df_Achieved r;
     df_Revenue_Reached := df_Revenue_Reached r;
     df_Target_Of := df_Target_Of r;
     df_Revenue_Pct := df_Revenue_Pct r;
     df_Quality_Score := df_Quality_Score r;
     df_Best_Achieved := df_Best_Achieved r;
     df_Best_Target := Some v |}.

Definition set_Achievement_Rate (v : option float) (r : DFRow) : DFRow :=
  {| df_PPT_File := df_PPT_File r;
     df_Achievement_Rate := v;
     df_Revenue_Target := df_Revenue_Target r;
     df_Achieved := df_Achieved r;
     df_Revenue_Reached := df_Revenue_Reached r;
     df_Target_Of := df_Target_Of r;
     df_Revenue_Pct := df_Revenue_Pct r;
     df_Quality_Score := df_Quality_Score r;
     df_Best_Achieved := df_Best_Achieved r;
     df_Best_Target := df_Best_Target r |}.

(** The lambdas of lines 140-146. *)
Definition best_achieved (r : DFRow) : option float :=
  if notnull (df_Achieved r) then df_Achieved r else df_Revenue_Reached r.

Definition best_target (r : DFRow) : option float :=
  if notnull (df_Revenue_Target r) then df_Revenue_Target r else df_Target_Of r.

(** The float [100.0]. *)
Definition hundred : float := Eval vm_compute in float_of_decimal false 100 0.

(** [infer_rate(row)], lines 148-159.  The [and] reads the columns from
    left to right and stops at the first false operand.  The frame has a
    column of text, so the values of a row reach the function as Python
    floats, and [/], [*] and [round] are those of [float]. *)
Definition infer_rate (row : DFRow) : result (option float) :=
  if notnull (df_Achievement_Rate row) then Ok (df_Achievement_Rate row)
  else
    ba ← getitem (df_Best_Achieved row);
    guard ←
      (if notnull ba then
         bt ← getitem (df_Best_Target row);
         Ok (notnull bt && match bt with Some t => nonzero t | None => true end)
       else Ok false);
    if (guard : bool) then
      bt ← getitem (df_Best_Target row);
      match ba, bt with
      | Some a, Some t => Ok (Some (round2 (fmul (fdiv a t) hundred)))
      | _, _ => Raise TypeError
      end
    else if notnull (df_Revenue_Pct row) then Ok (df_Revenue_Pct row)
    else Ok None.

(** [df.apply(f, axis=1)]: [f] on every row, in order; the first
    exception ends it. *)
Fixpoint apply_rows {A} (f : DFRow -> result A) (df : list DFRow) : result (list A) :=
  match df with
  | [] => Ok []
  | r :: df' => v ← f r; vs ← apply_rows f df'; Ok (v :: vs)
  end.

(** [df[column] = values] *)
Definition assign (set : option float -> DFRow -> DFRow) (df : list DFRow)
  (values : list (option float)) : list DFRow :=
  zip_with (fun r v => set v r) df values.

(** Lines 140-161: the three assignments. *)
Definition derive (df : list DFRow) : result (list DFRow) :=
  v1 ← apply_rows (fun r => Ok (best_achieved r)) df;
  let df := assign set_Best_Achieved df v1 in
  v2 ← apply_rows (fun r => Ok (best_target r)) df;
  let df := assign set_Best_Target df v2 in
  v3 ← apply_rows infer_rate df;
  Ok (assign set_Achievement_Rate df v3).

(** What lines 106-161 leave behind: the messages shown so far, and the
    table when there is a row. *)
Record page := {
  messages : list message;
  table : option (list DFRow)
}.

(** Lines 106-161: the batch and the table.  The block of the script
    goes on after the table - its display, the two exports of lines
    166-186, the charts, the closing message - and none of that is part
    of [main]: that [main] returns says nothing about the lines after
    161. *)
Definition main `{UnicodeData} (uploaded_ppts : list UploadedFile)
  (uploaded_zip : option zip_upload) : result page :=
  let st := process_files uploaded_ppts uploaded_zip in
  match rows st with
  | [] => Ok {| messages := log st ++ [info_no_files]; table := None |}
  | _ :: _ =>
      df ← derive (DataFrame (rows st));
      Ok {| messages := log st; table := Some df |}
  end.

(** ** Vocabulary of the statements *)

(** A string that neither starts nor ends with whitespace. *)
Definition starts_clean (s : str) : Prop :=
  match s with c :: _ => Py_UNICODE_ISSPACE c = false | [] => True end.

Definition ends_clean (s : str) : Prop := starts_clean (rev s).

(** The same for the ASCII whitespace that [float] skips. *)
Definition starts_clean_ascii (s : str) : Prop :=
  match s with c :: _ => Py_ISSPACE c = false | [] => True end.

Definition ends_clean_ascii (s : str) : Prop := starts_clean_ascii (rev s).

(** The text of a run as [extract_runs_text] keeps it. *)
Definition run_fragment (r : Run) : str := strip (default [] (run_text r)).

(** All runs of a shape, paragraph after paragraph. *)
Definition all_runs (shape : Shape) : list Run := flat_map runs (paragraphs shape).

(** The shape of the specification's example: the runs "₹" and "1,234". *)
Definition rupee_shape : Shape :=
  {| has_text_frame := Some true;
     paragraphs := [ {| runs := [ {| run_text := Some [RUPEE] |};
                                  {| run_text := Some (of_ascii "1,234") |} ] |} ] |}.

(** The same two runs in two paragraphs, with blank runs around them. *)
Definition rupee_shape_spread : Shape :=
  {| has_text_frame := Some true;
     paragraphs := [ {| runs := [ {| run_text := Some (of_ascii "  ") |};
                                  {| run_text := Some (SPACE :: [RUPEE]) |} ] |};
                     {| runs := [ {| run_text := None |};
                                  {| run_text := Some (of_ascii "1,234 ") |} ] |} ] |}.

(** The pattern stored under a key of [PATTERNS]. *)
Definition pattern_of (key : string) : list item :=
  default [] (snd <$> List.find (fun kp => bool_decide (fst kp = key)) PATTERNS).

(** The loop of [extract_kpis_from_text], for any list of patterns. *)
Definition search_all `{UnicodeData} (full_text : str) (patterns : list (string * list item))
  (data : gmap string str) : gmap string str :=
  fold_left (fun (data : gmap string str) kp =>
               match search (snd kp) full_text with
               | Some g => <[fst kp := g]> data
               | None => data
               end) patterns data.

(** The float 92.5. *)
Definition f92_5 : float := S754_finite false 6509108836433920 (-46).

(** *** The derived columns, row by row *)

(** The rate computed from the two best-of values: both present, the
    target not zero; the quotient is taken first, then multiplied by
    [100.0], then rounded. *)
Definition computed_rate (ba bt : option float) : option float :=
  match ba, bt with
  | Some a, Some t =>
      if notnull ba && (notnull bt && nonzero t)
      then Some (round2 (fmul (fdiv a t) hundred))
      else None
  | _, _ => None
  end.

(** The achievement rate of a row after the pass: its own when present,
    else the computed one, else the revenue percentage when present. *)
Definition reconciled_rate (r : DFRow) : option float :=
  if notnull (df_Achievement_Rate r) then df_Achievement_Rate r
  else match computed_rate (best_achieved r) (best_target r) with
       | Some x => Some x
       | None => if notnull (df_Revenue_Pct r) then df_Revenue_Pct r else None
       end.

(** A row after the pass. *)
Definition reconcile_row (r : DFRow) : DFRow :=
  {| df_PPT_File := df_PPT_File r;
     df_Achievement_Rate := reconciled_rate r;
     df_Revenue_Target := df_Revenue_Target r;
     df_Achieved := df_Achieved r;
     df_Revenue_Reached := df_Revenue_Reached r;
     df_Target_Of := df_Target_Of r;
     df_Revenue_Pct := df_Revenue_Pct r;
     df_Quality_Score := df_Quality_Score r;
     df_Best_Achieved := Some (best_achieved r);
     df_Best_Target := Some (best_target r) |}.

(** The formula as the specification writes it:
    [round(100 * bestAchieved / bestTarget, 2)]. *)
Definition rate_as_written (a t : float) : float :=
  round2 (fdiv (fmul hundred a) t).

(** The float of a natural number. *)
Definition float_of_N (n : N) : float := float_of_decimal false n 0.

(** A row with the given achieved and target amounts and nothing else. *)
Definition amounts_row (achieved target : N) : KPIRow :=
  {| PPT_File := of_ascii "deck.pptx";
     Achievement_Rate := None;
     Revenue_Target := Some (float_of_N target);
     Achieved := Some (float_of_N achieved);
     Revenue_Reached := None;
     Target_Of := None;
     Revenue_Pct := None;
     Quality_Score := None |}.

(** The rates of a table. *)
Definition rates (df : result (list DFRow)) : result (list (option float)) :=
  df ← df; Ok (List.map df_Achievement_Rate df).

(** The floats 14.37, 14.38 and 80.0. *)
Definition f14_37 : float := S754_finite false 8089590830664253 (-49).
Definition f14_38 : float := S754_finite false 8095220330198467 (-49).
Definition f80 : float := S754_finite false 5629499534213120 (-46).

(** *** Characters of numbers *)

(** A character that an ASCII float literal can contain: a digit, a sign,
    the point, or a letter of [e], [inf], [infinity], [nan]. *)
Definition numchar (c : codepoint) : bool :=
  is_ascii_digit c || (c =? PLUS)%N || (c =? MINUS)%N || (c =? DOT)%N
  || existsb (N.eqb (Py_TOLOWER c)) (of_ascii "einftya").



(** A float that is not NaN and has no minus sign: a zero, a positive
    number or plus infinity. *)
Definition posfloat (x : float) : bool :=
  match x with
  | S754_zero false | S754_finite false _ _ | S754_infinity false => true
  | _ => false
  end.





(** What a parser returned. *)
Definition returned (r : result (option float)) : option float :=
  match r with Ok v => v | Raise _ => None end.

(** The row of a deck that loaded. *)
Definition row_of_deck `{UnicodeData} (prs : Presentation) (filename : str) : KPIRow :=
  let kpis := extract_kpis_from_text (full_text_of prs) in
  {| PPT_File := filename;
     Achievement_Rate := returned (parse_percent (kpis !! "Achievement Rate"));
     Revenue_Target := returned (parse_currency (kpis !! "Revenue Target"));
     Achieved := returned (parse_currency (kpis !! "Achieved"));
     Revenue_Reached := returned (parse_currency (kpis !! "Revenue Reached"));
     Target_Of := returned (parse_currency (kpis !! "Target Of"));
     Revenue_Pct := returned (parse_percent (kpis !! "Revenue %"));
     Quality_Score := returned (parse_percent (kpis !! "Quality Score")) |}.

(** *** The documents of a batch *)

(** A document: its name and its bytes. *)
Abbreviation document := (str * bytes)%type.

(** The row of a document, when processing it succeeds. *)
Definition row_of `{UnicodeData} (d : document) : option KPIRow :=
  match process_pptx_bytes (snd d) (fst d) with
  | Ok row => Some row
  | Raise _ => None
  end.

Definition uploaded_documents (uploaded_ppts : list UploadedFile) : list document :=
  List.map (fun f => (name f, read f)) uploaded_ppts.

(** The names of the documents that gave a row. *)
Definition names_of_rows `{UnicodeData} (docs : list document) : gset str :=
  list_to_set (List.map fst (List.filter (fun d => bool_decide (is_Some (row_of d))) docs)).

(** The documents that the loop over the archive processes, as the code
    reads them: for each listed name that ends in ".pptx" and has not
    given a row so far, the name with the bytes that [zf.read] returns
    for it.  These are the bytes of the archive's last entry of that
    name, not those of the entry listed. *)
Fixpoint archive_documents `{UnicodeData} (entries : list (str * bytes))
  (seen : gset str) (names : list str) : list document :=
  match names with
  | [] => []
  | nm :: rest =>
      if is_pptx_name nm && negb (bool_decide (nm ∈ seen)) then
        let d := (nm, zf_read entries nm) in
        d :: archive_documents entries
               (match row_of d with Some _ => {[ nm ]} ∪ seen | None => seen end) rest
      else archive_documents entries seen rest
  end.

(** The archive part of a batch, as the code reads it. *)
Definition archived_documents `{UnicodeData} (uploaded_ppts : list UploadedFile)
  (uploaded_zip : option zip_upload) : list document :=
  match uploaded_zip with
  | Some (Zip entries) =>
      archive_documents entries (names_of_rows (uploaded_documents uploaded_ppts))
        (namelist entries)
  | _ => []
  end.

(** All documents that the two loops process, in processing order, as
    the code reads them. *)
Definition processed_documents `{UnicodeData} (uploaded_ppts : list UploadedFile)
  (uploaded_zip : option zip_upload) : list document :=
  uploaded_documents uploaded_ppts ++ archived_documents uploaded_ppts uploaded_zip.

(** One message per document that failed, in order. *)
Definition failures `{UnicodeData} (mk : str -> message) (docs : list document)
  : list message :=
  List.map (fun d => mk (fst d))
    (List.filter (fun d => negb (bool_decide (is_Some (row_of d)))) docs).

(** A deck without slides, a file name, and a batch of three uploads of
    which the second is corrupt. *)
Definition empty_deck : Presentation := {| slides := [] |}.
Definition a_pptx : str := of_ascii "a.pptx".
Definition b_pptx : str := of_ascii "b.pptx".
Definition c_pptx : str := of_ascii "c.pptx".
Definition three_uploads : list UploadedFile :=
  [ {| name := a_pptx; read := Pptx empty_deck |};
    {| name := b_pptx; read := Garbage |};
    {| name := c_pptx; read := Pptx empty_deck |} ].

(** The row of a deck in which no pattern matches. *)
Definition blank_row (nm : str) : KPIRow :=
  {| PPT_File := nm; Achievement_Rate := None; Revenue_Target := None;
     Achieved := None; Revenue_Reached := None; Target_Of := None;
     Revenue_Pct := None; Quality_Score := None |}.

(** *** What the patterns capture *)

(** The one-character matchers of a pattern that stand inside its group. *)
Fixpoint recorded (its : list item) (rec : bool) : list single :=
  match its with
  | [] => []
  | One x :: r | Star x :: r => (if rec then [x] else []) ++ recorded r rec
  | Open :: r => recorded r true
  | Close :: r => recorded r false
  end.

(** The matchers of the two groups of app.py: [[\d\.]], [[\d,]] and [%]. *)
Definition captures_number (x : single) : bool :=
  match x with
  | In [MDigit; MChar c] => (c =? DOT)%N || (c =? COMMA)%N
  | Lit c => (c =? PERCENT)%N
  | _ => false
  end.

(** A character of a captured value: a decimal digit, a point, a comma or
    the sign [%]. *)
Definition kpi_char `{UnicodeData} (c : codepoint) : bool :=
  Py_UNICODE_ISDECIMAL c || (c =? DOT)%N || (c =? COMMA)%N || (c =? PERCENT)%N.

(** The same characters once [float] has brought them to ASCII. *)
Definition plain_char (c : codepoint) : bool :=
  is_ascii_digit c || (c =? DOT)%N || (c =? COMMA)%N || (c =? PERCENT)%N.

(** A value of the table that is absent, or a float that is not NaN and
    not negative (plus infinity included). *)
Definition absent_or_pos (v : option float) : bool :=
  match v with None => true | Some x => posfloat x end.

(** The same, or NaN, which pandas reads as a missing value. *)
Definition missing_or_pos (v : option float) : bool :=
  match v with None => true | Some x => posfloat x || is_nan x end.

(** The values of a row of [process_pptx_bytes]. *)
Definition raw_values_ok (r : KPIRow) : bool :=
  absent_or_pos (Achievement_Rate r) && absent_or_pos (Revenue_Target r)
  && absent_or_pos (Achieved r) && absent_or_pos (Revenue_Reached r)
  && absent_or_pos (Target_Of r) && absent_or_pos (Revenue_Pct r)
  && absent_or_pos (Quality_Score r).

(** The values of a row of the final table. *)
Definition row_values_ok (r : DFRow) : bool :=
  missing_or_pos (df_Achievement_Rate r) && absent_or_pos (df_Revenue_Target r)
  && absent_or_pos (df_Achieved r) && absent_or_pos (df_Revenue_Reached r)
  && absent_or_pos (df_Target_Of r) && absent_or_pos (df_Revenue_Pct r)
  && absent_or_pos (df_Quality_Score r)
  && match df_Best_Achieved r with Some v => absent_or_pos v | None => false end
  && match df_Best_Target r with Some v => absent_or_pos v | None => false end.

(** A deck with one shape that holds one run of text. *)
Definition deck_of_text (t : str) : Presentation :=
  {| slides := [ {| shapes := [ {| has_text_frame := Some true;
                                   paragraphs := [ {| runs := [ {| run_text := Some t |} ] |} ]
                                |} ] |} ] |}.

(** "Achieved: 1" followed by 309 zeros: the number 10^309. *)
Definition huge_achieved : str := of_ascii "Achieved: 1" ++ repeat 0x30%N 309.

(** "Achieved: 23 Revenue Target: 160 Quality Score: 92.5%" *)
Definition sample_text : str :=
  of_ascii "Achieved: 23 Revenue Target: 160 Quality Score: 92.5%".

(** The row and the table of the deck with the number 10^309. *)
Definition huge_row : KPIRow :=
  {| PPT_File := a_pptx; Achievement_Rate := None; Revenue_Target := None;
     Achieved := Some (S754_infinity false); Revenue_Reached := None;
     Target_Of := None; Revenue_Pct := None; Quality_Score := None |}.

Definition huge_table : list DFRow :=
  [ {| df_PPT_File := a_pptx; df_Achievement_Rate := None;
       df_Revenue_Target := None; df_Achieved := Some (S754_infinity false);
       df_Revenue_Reached := None; df_Target_Of := None; df_Revenue_Pct := None;
       df_Quality_Score := None;
       df_Best_Achieved := Some (Some (S754_infinity false));
       df_Best_Target := Some None |} ].

(** The table of the deck with the sample text. *)
Definition sample_table : list DFRow :=
  [ {| df_PPT_File := a_pptx; df_Achievement_Rate := Some f14_37;
       df_Revenue_Target := Some (float_of_N 160);
       df_Achieved := Some (float_of_N 23);
       df_Revenue_Reached := None; df_Target_Of := None; df_Revenue_Pct := None;
       df_Quality_Score := Some f92_5;
       df_Best_Achieved := Some (Some (float_of_N 23));
       df_Best_Target := Some (Some (float_of_N 160)) |} ].

(** *** Further vocabulary *)

(** All shapes of a deck, slide after slide. *)
Definition all_shapes (prs : Presentation) : list Shape := flat_map shapes (slides prs).

(** The keys that [extract_kpis_from_text] can return: six that hold what
    their own pattern captured, and "Quality Score". *)
Definition ordinary_keys : list string :=
  ["Achievement Rate"; "Revenue Target"; "Achieved"; "Revenue Reached";
   "Target Of"; "Revenue %"].

Definition canonical_keys : list string := ordinary_keys ++ ["Quality Score"].

(** The number of characters that a match is sure to capture: the
    one-character items inside the group. *)
Fixpoint min_recorded (its : list item) (rec : bool) : nat :=
  match its with
  | [] => 0
  | One _ :: r => (if rec then 1 else 0) + min_recorded r rec
  | Star _ :: r => min_recorded r rec
  | Open :: r => min_recorded r true
  | Close :: r => min_recorded r false
  end.





(** [lower] on one character. *)
Definition lower_char (c : codepoint) : codepoint :=
  if ((0x41 <=? c) && (c <=? 0x5A))%N then (c + 0x20)%N else c.

Definition is_ascii_letter (c : codepoint) : bool :=
  ((0x41 <=? c) && (c <=? 0x5A) || (0x61 <=? c) && (c <=? 0x7A))%N.

(** A class member that is no ASCII letter. *)
Definition uncased_member (m : member) : bool :=
  match m with MChar x => negb (is_ascii_letter x) | _ => true end.

(** A one-character item that no ASCII letter matches. *)
Definition uncased (x : single) : bool :=
  match x with
  | Lit p => negb (is_ascii_letter (sre_lower p))
  | In ms => forallb uncased_member ms
  | _ => false
  end.

(** A one-character item that does not tell a letter from its other case. *)
Definition case_blind (x : single) : bool :=
  match x with
  | Lit _ | InIgnore _ => true
  | In ms | NotIn ms => forallb uncased_member ms
  end.

(** Items that do not tell the case of a letter, and capture no letter. *)
Fixpoint case_blind_items (rec : bool) (its : list item) : bool :=
  match its with
  | [] => true
  | One x :: r | Star x :: r =>
      (if rec then uncased x else case_blind x) && case_blind_items rec r
  | Open :: r => case_blind_items true r
  | Close :: r => case_blind_items false r
  end.

(** A character of the class [[\d\.]] in ASCII. *)
Definition point_or_digit (c : codepoint) : bool :=
  is_ascii_digit c || (c =? DOT)%N.

(** A row of the table that holds what the row of a document held: the
    name, the six values that the pass does not assign, and the rate when
    the document had one. *)
Definition kept (row : KPIRow) (r : DFRow) : Prop :=
  df_PPT_File r = PPT_File row
  /\ df_Revenue_Target r = Revenue_Target row
  /\ df_Achieved r = Achieved row
  /\ df_Revenue_Reached r = Revenue_Reached row
  /\ df_Target_Of r = Target_Of row
  /\ df_Revenue_Pct r = Revenue_Pct row
  /\ df_Quality_Score r = Quality_Score row
  /\ (notnull (Achievement_Rate row) = true ->
      df_Achievement_Rate r = Achievement_Rate row).

(** *** The batch as the specification counts it *)




(** Two decks that differ: "Achieved: 1" and "Achieved: 2". *)
Definition deck_one : Presentation := deck_of_text (of_ascii "Achieved: 1").
Definition deck_two : Presentation := deck_of_text (of_ascii "Achieved: 2").

(** *** The strings that [float] reads as numbers

    The syntax of the argument of [float], as the Python documentation
    gives it: optional whitespace; an optional sign; then digits with an
    optional point among them, before them or after them, and an optional
    exponent - or [inf], [infinity] or [nan] in any letter case; optional
    whitespace.  The digits are the decimal digits of any script, and one
    underscore may stand between two digits. *)










(* ===================================================================== *)
(** * Part II: properties                                                *)
(* ===================================================================== *)

(** ** Strings *)

Section StringFacts.

Lemma dropwhile_starts (p : codepoint -> bool) s :
  match dropwhile p s with c :: _ => p c = false | [] => True end.
Proof.
  induction s as [|c s IH]; simpl; [exact I|].
  destruct (p c) eqn:E; [exact IH | exact E].
Qed.

Lemma dropwhile_snoc (p : codepoint -> bool) l c :
  p c = false -> dropwhile p (l ++ [c]) = dropwhile p l ++ [c].
Proof.
  intros Hc. induction l as [|x l IH]; simpl.
  - now rewrite Hc.
  - destruct (p x); [exact IH | reflexivity].
Qed.

Lemma takewhile_dropwhile (p : codepoint -> bool) s :
  takewhile p s ++ dropwhile p s = s.
Proof.
  induction s as [|c s IH]; simpl; [reflexivity|].
  destruct (p c); simpl; [now rewrite IH | reflexivity].
Qed.

Lemma takewhile_Forall (p : codepoint -> bool) s :
  Forall (fun c => p c = true) (takewhile p s).
Proof.
  induction s as [|c s IH]; simpl; [constructor|].
  destruct (p c) eqn:E; [constructor; assumption | constructor].
Qed.

Lemma takewhile_app_stop (p : codepoint -> bool) l c r :
  Forall (fun x => p x = true) l -> p c = false ->
  takewhile p (l ++ c :: r) = l /\ dropwhile p (l ++ c :: r) = c :: r.
Proof.
  intros Hl Hc. induction Hl as [|x l Hx _ IH]; simpl.
  - now rewrite Hc.
  - rewrite Hx. destruct IH as [-> ->]. now split.
Qed.

Lemma takewhile_all (p : codepoint -> bool) l :
  Forall (fun x => p x = true) l ->
  takewhile p l = l /\ dropwhile p l = [].
Proof.
  induction 1 as [|x l Hx _ [IH1 IH2]]; simpl; [now split|].
  rewrite Hx, IH1, IH2. now split.
Qed.

Lemma dropwhile_clean (p : codepoint -> bool) s :
  match s with c :: _ => p c = false | [] => True end -> dropwhile p s = s.
Proof. destruct s as [|c s]; simpl; [reflexivity|]. now intros ->. Qed.


Lemma lstrip_clean s : starts_clean s -> lstrip s = s.
Proof. apply dropwhile_clean. Qed.

Lemma rstrip_clean s : ends_clean s -> rstrip s = s.
Proof.
  unfold ends_clean, rstrip, starts_clean. intros H.
  rewrite dropwhile_clean by exact H. apply rev_involutive.
Qed.

Lemma strip_clean s : starts_clean s -> ends_clean s -> strip s = s.
Proof. intros H1 H2. unfold strip. rewrite (lstrip_clean s H1). now apply rstrip_clean. Qed.

Lemma rstrip_cons c r :
  Py_UNICODE_ISSPACE c = false -> rstrip (c :: r) = c :: rstrip r.
Proof.
  intros Hc. unfold rstrip. simpl rev at 2.
  rewrite dropwhile_snoc by exact Hc. rewrite rev_app_distr. reflexivity.
Qed.

Lemma strip_starts_clean s : starts_clean (strip s).
Proof.
  unfold strip, lstrip. pose proof (dropwhile_starts Py_UNICODE_ISSPACE s) as H.
  destruct (dropwhile Py_UNICODE_ISSPACE s) as [|c r]; [exact I|].
  rewrite rstrip_cons by exact H. exact H.
Qed.

Lemma strip_ends_clean s : ends_clean (strip s).
Proof.
  unfold ends_clean, strip, rstrip. rewrite rev_involutive.
  apply dropwhile_starts.
Qed.

Lemma starts_clean_app a b : a <> [] -> starts_clean a -> starts_clean (a ++ b).
Proof. destruct a; [congruence | intros _ H; exact H]. Qed.

Lemma join_nonempty sep p ps : p <> [] -> join sep (p :: ps) <> [].
Proof. destruct p; [congruence|]. destruct ps; simpl; discriminate. Qed.

Lemma join_starts_clean sep ps :
  Forall (fun p => p <> [] /\ starts_clean p) ps -> starts_clean (join sep ps).
Proof.
  destruct 1 as [|p ps [Hne Hp] Hps]; simpl; [exact I|].
  destruct ps; [exact Hp | now apply starts_clean_app].
Qed.

Lemma join_ends_clean sep ps :
  Forall (fun p => p <> [] /\ ends_clean p) ps -> ends_clean (join sep ps).
Proof.
  induction 1 as [|p ps [Hne Hp] Hps IH]; [exact I|].
  destruct ps as [|q ps]; [exact Hp|].
  change (join sep (p :: q :: ps)) with (p ++ sep ++ join sep (q :: ps)).
  unfold ends_clean in *. rewrite !rev_app_distr, <- app_assoc.
  apply starts_clean_app; [|exact IH].
  inversion Hps as [|? ? [Hq _] _]; subst.
  intros E. apply (join_nonempty sep q ps Hq).
  apply (f_equal (@rev _)) in E. now rewrite rev_involutive in E.
Qed.

(** Joining stripped, non-empty parts leaves nothing to strip. *)
Lemma strip_join_stripped ps :
  Forall (fun p => p <> [] /\ starts_clean p /\ ends_clean p) ps ->
  strip (join [SPACE] ps) = join [SPACE] ps.
Proof.
  intros H. apply strip_clean.
  - apply join_starts_clean. eapply Forall_impl; [exact H|]. simpl. tauto.
  - apply join_ends_clean. eapply Forall_impl; [exact H|]. simpl. tauto.
Qed.

Lemma truthy_nonempty s : truthy s = true <-> s <> [].
Proof. destruct s; simpl; split; congruence. Qed.

End StringFacts.

(** ** The text assembler *)

Section TextAssembler.

(** A loop that appends the kept elements is a filter. *)
Lemma fold_append_filter {A} (g : A -> str) (l : list A) (acc : list str) :
  fold_left (fun parts x => if truthy (g x) then parts ++ [g x] else parts) l acc
  = acc ++ List.filter truthy (List.map g l).
Proof.
  revert acc. induction l as [|x l IH]; intros acc; simpl.
  - now rewrite app_nil_r.
  - rewrite IH. destruct (truthy (g x)); [now rewrite <- app_assoc | reflexivity].
Qed.

Lemma parts_of_paragraphs (ps : list Paragraph) (acc : list str) :
  fold_left (fun parts para =>
     fold_left (fun parts run =>
        let t := strip (default [] (run_text run)) in
        if truthy t then parts ++ [t] else parts) (runs para) parts) ps acc
  = acc ++ List.filter truthy (List.map run_fragment (flat_map runs ps)).
Proof.
  revert acc. induction ps as [|p ps IH]; intros acc; simpl.
  - now rewrite app_nil_r.
  - rewrite IH. change (fun parts run => _) with
      (fun parts run => if truthy (run_fragment run) then parts ++ [run_fragment run] else parts).
    rewrite (fold_append_filter run_fragment).
    rewrite List.map_app, List.filter_app, app_assoc. reflexivity.
Qed.

Lemma kept_fragments_stripped (l : list Run) :
  Forall (fun p => p <> [] /\ starts_clean p /\ ends_clean p)
    (List.filter truthy (List.map run_fragment l)).
Proof.
  apply Forall_forall. intros p Hp. apply list_elem_of_In in Hp.
  apply List.filter_In in Hp as [Hin Ht].
  apply List.in_map_iff in Hin as [r [<- _]].
  split; [now apply truthy_nonempty|].
  split; [apply strip_starts_clean | apply strip_ends_clean].
Qed.

(** C7.  For every shape, the assembled text is the run texts, each
    trimmed, the empty ones dropped, joined by one space in the order of
    the paragraphs and of the runs in them; without a text frame it is the
    empty string.  The runs "₹" and "1,234" give "₹ 1,234", in one
    paragraph or spread over two. *)
Theorem C7_extract_runs_text :
  (forall shape : Shape,
     extract_runs_text shape =
       if bool_decide (has_text_frame shape = Some true)
       then join [SPACE] (List.filter truthy (List.map run_fragment (all_runs shape)))
       else [])
  /\ extract_runs_text rupee_shape = RUPEE :: of_ascii " 1,234"
  /\ extract_runs_text rupee_shape_spread = RUPEE :: of_ascii " 1,234".
Proof.
  split; [|split; vm_compute; reflexivity].
  intros shape. unfold extract_runs_text, all_runs.
  case_bool_decide; [|reflexivity].
  rewrite parts_of_paragraphs. simpl app.
  apply strip_join_stripped, kept_fragments_stripped.
Qed.

End TextAssembler.

(** ** The pattern matcher *)

Section PatternMatcher.
Context `{UnicodeData}.

Lemma ascii_lower_ascii c : (c < 0x80)%N -> (sre_lower c < 0x80)%N.
Proof.
  intros Hc. unfold sre_lower.
  repeat match goal with
  | |- context [N.leb ?a ?b] => destruct (N.leb_spec a b); try lia
  | |- context [N.eqb ?a ?b] => destruct (N.eqb_spec a b); try lia
  end; simpl; lia.
Qed.

Lemma isdecimal_ascii c :
  (c < 0x80)%N -> Py_UNICODE_ISDECIMAL c = is_ascii_digit c.
Proof.
  intros Hc. unfold Py_UNICODE_ISDECIMAL. rewrite todecimal_ascii by exact Hc.
  now destruct (is_ascii_digit c).
Qed.

(** On ASCII text the matcher does not depend on the Unicode tables. *)
Lemma in_members_ascii ms c :
  (c < 0x80)%N -> in_members ms c = @in_members ascii_unicode_data ms c.
Proof.
  intros Hc. unfold in_members. induction ms as [|m ms IH]; simpl; [reflexivity|].
  rewrite IH. f_equal. destruct m; try reflexivity.
  rewrite isdecimal_ascii by exact Hc.
  unfold Py_UNICODE_ISDECIMAL. simpl. now destruct (is_ascii_digit c).
Qed.

Lemma match_single_ascii x c :
  (c < 0x80)%N -> match_single x c = @match_single ascii_unicode_data x c.
Proof.
  intros Hc. destruct x; simpl; try reflexivity.
  - now apply in_members_ascii.
  - now apply in_members_ascii, ascii_lower_ascii.
  - f_equal. now apply in_members_ascii.
Qed.

Lemma match_here_ascii its s :
  Forall (fun c => (c < 0x80)%N) s ->
  forall rec acc, match_here its s rec acc = @match_here ascii_unicode_data its s rec acc.
Proof.
  revert s. induction its as [|it its IH]; intros s Hs rec acc; [reflexivity|].
  destruct it as [x|x| |]; simpl.
  - destruct Hs as [|c s Hc Hs]; [reflexivity|].
    rewrite match_single_ascii by exact Hc.
    destruct (match_single x c); [now apply IH | reflexivity].
  - revert acc. induction Hs as [|c s Hc Hs IHs]; intros acc.
    + now apply IH.
    + rewrite match_single_ascii by exact Hc.
      destruct (match_single x c).
      * rewrite IHs. rewrite (IH (c :: s)) by now constructor. reflexivity.
      * apply IH. now constructor.
  - now apply IH.
  - now apply IH.
Qed.

Lemma search_ascii its s :
  Forall (fun c => (c < 0x80)%N) s ->
  search its s = @search ascii_unicode_data its s.
Proof.
  induction 1 as [|c s Hc Hs IH]; simpl.
  - now rewrite match_here_ascii by constructor.
  - rewrite match_here_ascii by now constructor. now rewrite IH.
Qed.

Lemma search_all_ascii text patterns data :
  Forall (fun c => (c < 0x80)%N) text ->
  search_all text patterns data = @search_all ascii_unicode_data text patterns data.
Proof.
  intros Ht. revert data. unfold search_all.
  induction patterns as [|kp l IH]; intros data; simpl; [reflexivity|].
  rewrite search_ascii by exact Ht. apply IH.
Qed.

Lemma extract_kpis_ascii text :
  Forall (fun c => (c < 0x80)%N) text ->
  extract_kpis_from_text text = @extract_kpis_from_text ascii_unicode_data text.
Proof.
  intros Ht. pose proof (search_all_ascii text PATTERNS ∅ Ht) as E.
  unfold search_all in E. unfold extract_kpis_from_text. now rewrite E.
Qed.

(** After the loop a key holds what its pattern captured. *)
Lemma search_all_lookup text patterns data k pat :
  NoDup (List.map fst patterns) ->
  (k, pat) ∈ patterns ->
  search_all text patterns data !! k =
    match search pat text with Some g => Some g | None => data !! k end.
Proof.
  unfold search_all. revert data.
  induction patterns as [|[k' pat'] l IH]; intros data Hnd Hin.
  - inversion Hin.
  - simpl in Hnd. apply NoDup_cons in Hnd as [Hk' Hnd].
    apply elem_of_cons in Hin as [Heq|Hin]; [injection Heq as Ek Ep; subst k' pat'|]; simpl.
    + assert (Hstay : forall d : gmap string str,
                fold_left (fun (data : gmap string str) kp =>
                   match search (snd kp) text with
                   | Some g => <[fst kp := g]> data
                   | None => data
                   end) l d !! k = d !! k).
      { clear IH. induction l as [|[k2 p2] l IHl]; intros d; simpl; [reflexivity|].
        simpl in Hk', Hnd. apply NoDup_cons in Hnd as [Hk2 Hnd].
        rewrite IHl; [|intros Hc; apply Hk'; now apply list_elem_of_further|exact Hnd].
        destruct (search p2 text); [|reflexivity].
        simpl. apply lookup_insert_ne. intros ->. apply Hk', list_elem_of_here. }
      rewrite Hstay. destruct (search pat text); [apply lookup_insert_eq | reflexivity].
    + rewrite IH by assumption.
      destruct (search pat text); [reflexivity|].
      destruct (search pat' text); [|reflexivity].
      simpl. apply lookup_insert_ne. intros ->.
      apply Hk'. apply list_elem_of_fmap. exists (k, pat). now split.
Qed.

Lemma PATTERNS_keys_NoDup : NoDup (List.map fst PATTERNS).
Proof. apply (bool_decide_unpack _). vm_compute. exact I. Qed.

Lemma PATTERNS_pattern_of k :
  k ∈ List.map fst PATTERNS -> (k, pattern_of k) ∈ PATTERNS.
Proof.
  intros Hk. simpl in Hk.
  repeat (apply elem_of_cons in Hk as [->|Hk];
          [apply list_elem_of_In; vm_compute; tauto|]).
  inversion Hk.
Qed.

(** C6.  For every text the result has no key "Quality Score (alt)";
    "Quality Score" holds what the primary pattern captured when it
    matched, and otherwise what the fallback pattern captured, if
    anything.  A text that is only "Quality Score: 92.5%" gives the
    capture "92.5%", which [parse_percent] turns into 92.5. *)
Theorem C6_quality_score_fallback :
  (forall text, extract_kpis_from_text text !! "Quality Score (alt)" = None)
  /\ (forall text,
        extract_kpis_from_text text !! "Quality Score" =
          match search (pattern_of "Quality Score") text with
          | Some primary => Some primary
          | None => search (pattern_of "Quality Score (alt)") text
          end)
  /\ search (pattern_of "Quality Score") (of_ascii "Quality Score: 92.5%") = None
  /\ extract_kpis_from_text (of_ascii "Quality Score: 92.5%") !! "Quality Score"
     = Some (of_ascii "92.5%")
  /\ parse_percent
       (extract_kpis_from_text (of_ascii "Quality Score: 92.5%") !! "Quality Score")
     = Ok (Some f92_5).
Proof.
  assert (Hlook : forall text k, k ∈ List.map fst PATTERNS ->
            search_all text PATTERNS ∅ !! k = search (pattern_of k) text).
  { intros text k Hk.
    rewrite (search_all_lookup text PATTERNS ∅ k (pattern_of k)
               PATTERNS_keys_NoDup (PATTERNS_pattern_of k Hk)).
    rewrite lookup_empty. now destruct (search (pattern_of k) text). }
  assert (Kqs : "Quality Score" ∈ List.map fst PATTERNS)
    by (apply (bool_decide_unpack _); vm_compute; exact I).
  assert (Kalt : "Quality Score (alt)" ∈ List.map fst PATTERNS)
    by (apply (bool_decide_unpack _); vm_compute; exact I).
  assert (Hqs : forall text,
            extract_kpis_from_text text !! "Quality Score" =
              match search (pattern_of "Quality Score") text with
              | Some primary => Some primary
              | None => search (pattern_of "Quality Score (alt)") text
              end).
  { intros text. unfold extract_kpis_from_text.
    change (fold_left _ PATTERNS ∅) with (search_all text PATTERNS ∅).
    rewrite lookup_delete_ne by discriminate.
    rewrite (Hlook text _ Kqs), (Hlook text _ Kalt).
    destruct (search (pattern_of "Quality Score") text) as [g|] eqn:E1.
    - rewrite (Hlook text _ Kqs). exact E1.
    - destruct (search (pattern_of "Quality Score (alt)") text) as [g|] eqn:E2.
      + apply lookup_insert_eq.
      + rewrite (Hlook text _ Kqs). exact E1. }
  assert (Hascii : Forall (fun c => (c < 0x80)%N) (of_ascii "Quality Score: 92.5%")).
  { apply Forall_forall. intros c Hc. apply list_elem_of_In in Hc.
    vm_compute in Hc. intuition (subst; reflexivity). }
  split; [|split; [exact Hqs|]].
  - intros text. unfold extract_kpis_from_text. apply lookup_delete_eq.
  - rewrite extract_kpis_ascii by exact Hascii.
    rewrite search_ascii by exact Hascii.
    split; [vm_compute; reflexivity|].
    split; vm_compute; reflexivity.
Qed.

End PatternMatcher.

(** ** The table *)

Section Table.

Lemma apply_rows_pure {A} (f : DFRow -> A) (df : list DFRow) :
  apply_rows (fun r => Ok (f r)) df = Ok (List.map f df).
Proof. induction df as [|r df IH]; simpl; [reflexivity|]. now rewrite IH. Qed.

Lemma apply_rows_ok {A} (f : DFRow -> result A) (g : DFRow -> A) (df : list DFRow) :
  Forall (fun r => f r = Ok (g r)) df ->
  apply_rows f df = Ok (List.map g df).
Proof. induction 1 as [|r df Hr _ IH]; simpl; [reflexivity|]. now rewrite Hr, IH. Qed.

Lemma assign_map (set : option float -> DFRow -> DFRow) (f : DFRow -> option float) df :
  assign set df (List.map f df) = List.map (fun r => set (f r) r) df.
Proof.
  unfold assign. induction df as [|r df IH]; simpl; [reflexivity|]. now rewrite IH.
Qed.

(** With both best-of columns in place [infer_rate] returns, and returns
    the reconciled rate. *)
Lemma infer_rate_ok (r : DFRow) :
  infer_rate (set_Best_Target (best_target r) (set_Best_Achieved (best_achieved r) r))
  = Ok (reconciled_rate r).
Proof.
  unfold infer_rate, reconciled_rate, computed_rate. simpl.
  destruct (notnull (df_Achievement_Rate r)); [reflexivity|].
  destruct (best_achieved r) as [a|], (best_target r) as [t|]; simpl;
    repeat match goal with
    | |- context [is_nan ?x] => destruct (is_nan x); simpl
    | |- context [nonzero ?x] => destruct (nonzero x); simpl
    end;
    destruct (notnull (df_Revenue_Pct r)); reflexivity.
Qed.

(** The three assignments are one row-by-row map, and never raise. *)
Lemma derive_map (df : list DFRow) : derive df = Ok (List.map reconcile_row df).
Proof.
  unfold derive. rewrite apply_rows_pure. simpl. rewrite assign_map.
  rewrite apply_rows_pure. simpl. rewrite assign_map.
  rewrite List.map_map.
  rewrite (apply_rows_ok infer_rate
             (fun r' => reconciled_rate
                {| df_PPT_File := df_PPT_File r';
                   df_Achievement_Rate := df_Achievement_Rate r';
                   df_Revenue_Target := df_Revenue_Target r';
                   df_Achieved := df_Achieved r';
                   df_Revenue_Reached := df_Revenue_Reached r';
                   df_Target_Of := df_Target_Of r';
                   df_Revenue_Pct := df_Revenue_Pct r';
                   df_Quality_Score := df_Quality_Score r';
                   df_Best_Achieved := None;
                   df_Best_Target := None |})).
  - simpl. rewrite assign_map, List.map_map. reflexivity.
  - apply Forall_forall. intros r' Hr'. apply list_elem_of_In in Hr'.
    apply List.in_map_iff in Hr' as [r [<- _]].
    exact (infer_rate_ok r).
Qed.

Lemma reconcile_row_idempotent (r : DFRow) :
  reconcile_row (reconcile_row r) = reconcile_row r.
Proof.
  unfold reconcile_row. simpl. f_equal.
  unfold reconciled_rate at 1. simpl.
  change (best_achieved _) with (best_achieved r).
  change (best_target _) with (best_target r).
  unfold reconciled_rate.
  destruct (notnull (df_Achievement_Rate r)) eqn:E1; [now rewrite E1|].
  destruct (notnull (match computed_rate (best_achieved r) (best_target r) with
                     | Some x => Some x
                     | None => if notnull (df_Revenue_Pct r)
                               then df_Revenue_Pct r else None
                     end)); reflexivity.
Qed.

(** C4, as the code has it.  The pass treats every row on its own and
    never raises.  Best achieved is Achieved when present, else Revenue
    Reached; best target is Revenue Target when present, else Target Of.
    The rate is the row's own when present; else, when both best-of values
    are present and the target is not zero, the quotient best achieved /
    best target, multiplied by 100.0 and rounded to two decimals, each
    step in double precision and in this order; else Revenue % when
    present; else nothing.  A zero target gives no computed rate.
    Achieved 8000 of 10000 gives 80.0, achieved 500 of 0 gives nothing. *)
Theorem C4_reconciliation :
  (forall df, derive df = Ok (List.map reconcile_row df))
  /\ (forall r, df_Best_Achieved (reconcile_row r) =
         Some (if notnull (df_Achieved r) then df_Achieved r else df_Revenue_Reached r))
  /\ (forall r, df_Best_Target (reconcile_row r) =
         Some (if notnull (df_Revenue_Target r) then df_Revenue_Target r
               else df_Target_Of r))
  /\ (forall r, df_Achievement_Rate (reconcile_row r) =
         if notnull (df_Achievement_Rate r) then df_Achievement_Rate r
         else match computed_rate (best_achieved r) (best_target r) with
              | Some x => Some x
              | None => if notnull (df_Revenue_Pct r) then df_Revenue_Pct r else None
              end)
  /\ (forall a t, computed_rate (Some a) (Some t) =
         if negb (is_nan a) && (negb (is_nan t) && nonzero t)
         then Some (round2 (fmul (fdiv a t) hundred)) else None)
  /\ (forall ba, computed_rate ba None = None)
  /\ (forall bt, computed_rate None bt = None)
  /\ (forall ba s, computed_rate ba (Some (S754_zero s)) = None)
  /\ rates (derive (DataFrame [amounts_row 8000 10000])) = Ok [Some f80]
  /\ rates (derive (DataFrame [amounts_row 500 0])) = Ok [None].
Proof.
  split; [exact derive_map|].
  repeat split; try reflexivity.
  - intros [a|]; reflexivity.
  - intros [a|] s; simpl; [|reflexivity].
    destruct (is_nan a); destruct s; reflexivity.
Qed.

(** C4 as written fails: with 23 achieved of a target of 160 the table
    holds 14.37, while 100 * 23 / 160 = 14.375 rounds to 14.38, in floats
    as in exact arithmetic. *)
Lemma C4_counterexample :
  rates (derive (DataFrame [amounts_row 23 160])) = Ok [Some f14_37]
  /\ rate_as_written (float_of_N 23) (float_of_N 160) = f14_38
  /\ div_half_even (100 * (100 * 23)) 160 = 1438%Z
  /\ f14_37 <> f14_38.
Proof. repeat split; try (vm_compute; reflexivity). discriminate. Qed.

(** C8.  For every table the pass returns a table, and the pass on that
    table returns it unchanged. *)
Theorem C8_reconciliation_idempotent :
  forall df : list DFRow,
    exists df1, derive df = Ok df1 /\ derive df1 = Ok df1.
Proof.
  intros df. exists (List.map reconcile_row df). split; [apply derive_map|].
  rewrite derive_map, List.map_map. f_equal.
  apply List.map_ext. exact reconcile_row_idempotent.
Qed.

End Table.

(** ** Signs of float results *)

Section FloatSigns.

Lemma shr_1_nonneg mrs : (0 <= shr_m mrs)%Z -> (0 <= shr_m (shr_1 mrs))%Z.
Proof.
  destruct mrs as [m r s0]. simpl.
  destruct m as [|p|p]; simpl; [lia| |lia].
  intros _. destruct p; simpl; lia.
Qed.

Lemma iter_shr_1_nonneg p mrs :
  (0 <= shr_m mrs)%Z -> (0 <= shr_m (SpecFloat.iter_pos shr_1 p mrs))%Z.
Proof.
  revert mrs. induction p as [p IH|p IH|]; intros mrs Hm; simpl.
  - apply IH, IH, shr_1_nonneg, Hm.
  - apply IH, IH, Hm.
  - apply shr_1_nonneg, Hm.
Qed.

Lemma shr_fexp_nonneg m e l :
  (0 <= m)%Z -> (0 <= shr_m (fst (shr_fexp prec emax m e l)))%Z.
Proof.
  intros Hm. unfold shr_fexp, shr.
  assert (H0 : (0 <= shr_m (shr_record_of_loc m l))%Z)
    by (destruct l as [|[]]; exact Hm).
  destruct (_ - e)%Z; simpl; try exact H0.
  now apply iter_shr_1_nonneg.
Qed.

Lemma round_nearest_even_nonneg mx lx :
  (0 <= mx)%Z -> (0 <= round_nearest_even mx lx)%Z.
Proof.
  intros Hm. unfold round_nearest_even.
  destruct lx as [|[]]; try destruct (Z.even mx); lia.
Qed.

(** Rounding a non-negative mantissa gives a zero, a finite number or an
    infinity of the given sign, never NaN. *)
Lemma binary_round_aux_sign sx mx ex lx :
  (0 <= mx)%Z ->
  match binary_round_aux prec emax sx mx ex lx with
  | S754_zero s | S754_infinity s | S754_finite s _ _ => s = sx
  | S754_nan => False
  end.
Proof.
  intros Hm. unfold binary_round_aux.
  pose proof (shr_fexp_nonneg mx ex lx Hm) as H1.
  destruct (shr_fexp prec emax mx ex lx) as [mrs' e'].
  simpl in H1.
  pose proof (shr_fexp_nonneg _ e' loc_Exact
                (round_nearest_even_nonneg _ (loc_of_shr_record mrs') H1)) as H2.
  destruct (shr_fexp prec emax _ e' loc_Exact) as [mrs'' e''].
  simpl in H2. destruct (shr_m mrs'') as [|p|p]; [reflexivity| |lia].
  destruct (e'' <=? emax - prec)%Z; reflexivity.
Qed.

Lemma div_core_binary_nonneg m1 e1 m2 e2 :
  (0 <= fst (fst (SFdiv_core_binary prec emax (Zpos m1) e1 (Zpos m2) e2)))%Z.
Proof.
  unfold SFdiv_core_binary.
  set (s := (_ - _ - _)%Z).
  set (m' := match s with Z0 => Zpos m1 | Zpos _ => Z.shiftl (Zpos m1) s | Zneg _ => 0%Z end).
  assert (Hm' : (0 <= m')%Z).
  { subst m'. destruct s; [lia | apply Z.shiftl_nonneg; lia | lia]. }
  pose proof (Z.div_pos m' (Zpos m2) Hm' eq_refl) as Hq.
  unfold Z.div in Hq. destruct (Z.div_eucl m' (Zpos m2)) as [q r]. exact Hq.
Qed.

Lemma float_of_ratio_pos n d : posfloat (float_of_ratio false n d) = true.
Proof.
  unfold float_of_ratio. pose proof (div_core_binary_nonneg n 0 d 0) as Hq.
  destruct (SFdiv_core_binary prec emax (Zpos n) 0 (Zpos d) 0) as [[q e] l].
  simpl in Hq. pose proof (binary_round_aux_sign false q e l Hq) as Hs.
  destruct (binary_round_aux prec emax false q e l); try subst; try reflexivity.
  contradiction.
Qed.

Lemma float_of_decimal_pos m e10 : posfloat (float_of_decimal false m e10) = true.
Proof.
  unfold float_of_decimal. destruct m; [reflexivity|].
  destruct (0 <=? e10)%Z; apply float_of_ratio_pos.
Qed.

Lemma round_aux_pos mx ex lx :
  (0 <= mx)%Z -> posfloat (binary_round_aux prec emax false mx ex lx) = true.
Proof.
  intros Hm. pose proof (binary_round_aux_sign false mx ex lx Hm) as Hs.
  destruct (binary_round_aux prec emax false mx ex lx); try subst; try reflexivity.
  contradiction.
Qed.

(** The quotient of two non-negative numbers is one, or NaN. *)
Lemma fdiv_sign a t :
  posfloat a = true -> posfloat t = true ->
  posfloat (fdiv a t) || is_nan (fdiv a t) = true.
Proof.
  destruct a as [[]|[]| |[] ma ea]; try discriminate;
    destruct t as [[]|[]| |[] mt et]; try discriminate; intros _ _;
    try reflexivity.
  unfold fdiv, SFdiv. pose proof (div_core_binary_nonneg ma ea mt et) as Hq.
  destruct (SFdiv_core_binary prec emax (Zpos ma) ea (Zpos mt) et) as [[q e] l].
  simpl in Hq. simpl xorb. now rewrite round_aux_pos.
Qed.

Lemma fmul_sign x y :
  posfloat x || is_nan x = true -> posfloat y = true ->
  posfloat (fmul x y) || is_nan (fmul x y) = true.
Proof.
  destruct x as [[]|[]| |[] mx ex]; try discriminate;
    destruct y as [[]|[]| |[] my ey]; try discriminate; intros _ _;
    try reflexivity.
  unfold fmul, SFmul. simpl xorb. now rewrite round_aux_pos by lia.
Qed.

Lemma round2_sign x :
  posfloat x || is_nan x = true -> posfloat (round2 x) || is_nan (round2 x) = true.
Proof.
  destruct x as [[]|[]| |[] m e]; try discriminate; intros _; try reflexivity.
  unfold round2. now rewrite float_of_decimal_pos.
Qed.

End FloatSigns.

(** ** Floats from strings *)

(** Decide the comparisons of code points in the goal or the context. *)
Ltac char_cases :=
  repeat match goal with
  | |- context [N.leb ?a ?b] => destruct (N.leb_spec a b); try lia
  | |- context [N.eqb ?a ?b] => destruct (N.eqb_spec a b); try lia
  | |- context [N.ltb ?a ?b] => destruct (N.ltb_spec a b); try lia
  | H : context [N.leb ?a ?b] |- _ => destruct (N.leb_spec a b); try lia
  | H : context [N.eqb ?a ?b] |- _ => destruct (N.eqb_spec a b); try lia
  | H : context [N.ltb ?a ?b] |- _ => destruct (N.ltb_spec a b); try lia
  end.

Section FloatParsing.
Context `{UnicodeData}.

Lemma digit_range c : is_ascii_digit c = true <-> (0x30 <= c <= 0x39)%N.
Proof. unfold is_ascii_digit. rewrite andb_true_iff, !N.leb_le. tauto. Qed.


Lemma digit_not_uspace c : is_ascii_digit c = true -> Py_UNICODE_ISSPACE c = false.
Proof. intros Hc%digit_range. unfold Py_UNICODE_ISSPACE. char_cases; reflexivity. Qed.

Lemma replace_del_keep x l :
  Forall (fun c => c <> x) l -> replace_del x l = l.
Proof.
  unfold replace_del. induction 1 as [|c l Hc _ IH]; simpl; [reflexivity|].
  destruct (N.eqb_spec c x); [contradiction|]. simpl. now rewrite IH.
Qed.

Lemma replace_del_app x l1 l2 :
  replace_del x (l1 ++ l2) = replace_del x l1 ++ replace_del x l2.
Proof. apply List.filter_app. Qed.

Lemma replace_del_self x : replace_del x [x] = [].
Proof. unfold replace_del. simpl. now rewrite N.eqb_refl. Qed.



Lemma no_space_clean s :
  Forall (fun c => Py_ISSPACE c = false) s ->
  starts_clean_ascii s /\ ends_clean_ascii s.
Proof.
  intros Hs. split; [destruct Hs; simpl; auto|].
  unfold ends_clean_ascii. apply Forall_rev in Hs.
  destruct Hs; simpl; auto.
Qed.

Lemma transform_ascii s :
  Forall (fun c => (c < 0x80)%N) s -> TransformDecimalAndSpaceToASCII s = s.
Proof.
  intros Hs. unfold TransformDecimalAndSpaceToASCII.
  replace (forallb _ s) with true; [reflexivity|].
  symmetry. apply forallb_forall. intros c Hc.
  rewrite Forall_forall in Hs. apply N.ltb_lt, Hs. now apply list_elem_of_In.
Qed.

Lemma no_underscore s :
  Forall (fun c => c <> UNDERSCORE) s ->
  existsb (fun c => (c =? UNDERSCORE)%N) s = false.
Proof.
  induction 1 as [|c s Hc _ IH]; simpl; [reflexivity|].
  rewrite IH. now destruct (N.eqb_spec c UNDERSCORE).
Qed.








(** *** What the number parser reads *)

Lemma numchar_digit c : is_ascii_digit c = true -> numchar c = true.
Proof. intros Hc. unfold numchar. now rewrite Hc. Qed.

Lemma numchar_letter c x :
  Py_TOLOWER c = x -> existsb (N.eqb x) (of_ascii "einftya") = true ->
  numchar c = true.
Proof. intros Hc Hx. unfold numchar. rewrite Hc, Hx. apply orb_true_r. Qed.

Lemma Forall_numchar_digits l :
  Forall (fun c => is_ascii_digit c = true) l ->
  Forall (fun c => numchar c = true) l.
Proof. intros Hl. eapply Forall_impl; [exact Hl|]. exact numchar_digit. Qed.

Lemma parse_sign_inv s neg r :
  parse_sign s = (neg, r) ->
  exists pre, s = pre ++ r /\ Forall (fun c => numchar c = true) pre
              /\ (neg = true -> exists s', s = MINUS :: s').
Proof.
  unfold parse_sign. destruct s as [|c s'].
  - intros [= <- <-]. exists []. repeat split; [constructor | discriminate].
  - destruct (N.eqb_spec c MINUS) as [->|Hm].
    + intros [= <- <-]. exists [MINUS]. repeat split; [repeat constructor | eauto].
    + destruct (N.eqb_spec c PLUS) as [->|Hp]; intros [= <- <-].
      * exists [PLUS]. repeat split; [repeat constructor | discriminate].
      * exists []. repeat split; [constructor | discriminate].
Qed.

Lemma parse_fraction_inv r1 fp r2 :
  parse_fraction r1 = (fp, r2) ->
  exists pre, r1 = pre ++ r2 /\ Forall (fun c => numchar c = true) pre.
Proof.
  unfold parse_fraction. destruct r1 as [|c r'].
  - intros [= <- <-]. exists []. split; [reflexivity | constructor].
  - destruct (N.eqb_spec c DOT) as [->|Hd]; intros [= <- <-].
    + exists (DOT :: takewhile is_ascii_digit r'). split.
      * simpl. now rewrite takewhile_dropwhile.
      * constructor; [reflexivity|]. apply Forall_numchar_digits, takewhile_Forall.
    + exists []. split; [reflexivity | constructor].
Qed.

Lemma parse_exponent_inv r2 e r3 :
  parse_exponent r2 = (e, r3) ->
  exists pre, r2 = pre ++ r3 /\ Forall (fun c => numchar c = true) pre.
Proof.
  unfold parse_exponent. destruct r2 as [|c r'].
  - intros [= <- <-]. exists []. split; [reflexivity | constructor].
  - destruct ((c =? 0x65)%N || (c =? 0x45)%N) eqn:Ec.
    + destruct (parse_sign r') as [eneg r''] eqn:Es.
      destruct (parse_sign_inv _ _ _ Es) as (sg & -> & Hsg & _).
      pose proof (takewhile_dropwhile is_ascii_digit r'') as Hsplit.
      pose proof (takewhile_Forall is_ascii_digit r'') as Hdig.
      destruct (takewhile is_ascii_digit r'') as [|d ed]; intros [= <- <-].
      * exists []. split; [reflexivity | constructor].
      * exists (c :: sg ++ d :: ed). split.
        -- simpl. rewrite <- app_assoc. simpl. do 2 f_equal. symmetry. exact Hsplit.
        -- constructor.
           ++ apply (numchar_letter c 0x65%N); [|reflexivity].
              unfold Py_TOLOWER. apply orb_true_iff in Ec.
              destruct Ec as [->%N.eqb_eq | ->%N.eqb_eq]; reflexivity.
           ++ apply Forall_app. split; [exact Hsg|].
              now apply Forall_numchar_digits.
    + intros [= <- <-]. exists []. split; [reflexivity | constructor].
Qed.

(** What [_Py_dg_strtod] reads is made of number characters, and its
    value has the sign that was read. *)
Lemma dg_strtod_inv s x rest :
  dg_strtod s = Some (x, rest) ->
  exists pre, s = pre ++ rest /\ Forall (fun c => numchar c = true) pre
              /\ exists m e, x = float_of_decimal (fst (parse_sign s)) m e.
Proof.
  unfold dg_strtod. destruct (parse_sign s) as [neg r] eqn:Es.
  destruct (parse_sign_inv _ _ _ Es) as (sg & -> & Hsg & _).
  pose proof (takewhile_dropwhile is_ascii_digit r) as Hsplit.
  pose proof (takewhile_Forall is_ascii_digit r) as Hdig.
  destruct (parse_fraction (dropwhile is_ascii_digit r)) as [fp r2] eqn:Ef.
  destruct (parse_fraction_inv _ _ _ Ef) as (pf & Hpf & Hfr).
  destruct (takewhile is_ascii_digit r ++ fp) as [|d ds] eqn:Ed; [discriminate|].
  destruct (parse_exponent r2) as [e r3] eqn:Ee.
  destruct (parse_exponent_inv _ _ _ Ee) as (pe & -> & Hpe).
  intros [= <- <-].
  exists (sg ++ takewhile is_ascii_digit r ++ pf ++ pe). split; [|split].
  - rewrite <- Hsplit at 1. rewrite Hpf. now rewrite <- !app_assoc.
  - repeat (apply Forall_app; split); try assumption.
    now apply Forall_numchar_digits.
  - simpl. eauto.
Qed.

Lemma case_insensitive_match_inv s t r :
  case_insensitive_match s t = Some r ->
  exists pre, s = pre ++ r /\ List.map Py_TOLOWER pre = t.
Proof.
  revert s. induction t as [|x t IH]; intros s; simpl.
  - intros [= <-]. now exists [].
  - destruct s as [|c s']; [discriminate|].
    destruct (N.eqb_spec (Py_TOLOWER c) x) as [Hx|]; [|discriminate].
    intros Hr. apply IH in Hr as (pre & Hs & Ht).
    exists (c :: pre). simpl. now rewrite Hs, Ht, Hx.
Qed.

Lemma keyword_numchars pre t :
  List.map Py_TOLOWER pre = t ->
  forallb (fun x => existsb (N.eqb x) (of_ascii "einftya")) t = true ->
  Forall (fun c => numchar c = true) pre.
Proof.
  intros <- Ht. induction pre as [|c pre IH]; [constructor|].
  simpl in Ht. apply andb_true_iff in Ht as [Hc Ht].
  constructor; [now apply (numchar_letter c _ eq_refl) | now apply IH].
Qed.

(** [_Py_parse_inf_or_nan] reads letters only, and needs an [i] or an
    [n] after the sign. *)
Lemma parse_inf_or_nan_inv s x rest :
  parse_inf_or_nan s = Some (x, rest) ->
  exists pre, s = pre ++ rest /\ Forall (fun c => numchar c = true) pre
    /\ exists c r, snd (parse_sign s) = c :: r
                   /\ (Py_TOLOWER c = 0x69%N \/ Py_TOLOWER c = 0x6E%N).
Proof.
  unfold parse_inf_or_nan. destruct (parse_sign s) as [neg r] eqn:Es.
  destruct (parse_sign_inv _ _ _ Es) as (sg & -> & Hsg & _).
  destruct (case_insensitive_match r (of_ascii "inf")) as [r1|] eqn:E1.
  - destruct (case_insensitive_match_inv _ _ _ E1) as (p1 & -> & Hp1).
    assert (Hhead : exists c r0, p1 ++ r1 = c :: r0 /\ Py_TOLOWER c = 0x69%N).
    { destruct p1 as [|c p1]; [discriminate|]. injection Hp1 as Hc _. eauto. }
    destruct Hhead as (c & r0 & Hcr & Hc).
    pose proof (keyword_numchars p1 _ Hp1 eq_refl) as Hn1.
    destruct (case_insensitive_match r1 (of_ascii "inity")) as [r2|] eqn:E2.
    + destruct (case_insensitive_match_inv _ _ _ E2) as (p2 & -> & Hp2).
      pose proof (keyword_numchars p2 _ Hp2 eq_refl) as Hn2.
      intros [= <- <-]. exists (sg ++ p1 ++ p2). split; [|split].
      * now rewrite <- !app_assoc.
      * repeat (apply Forall_app; split); assumption.
      * exists c, r0. simpl. split; [exact Hcr | now left].
    + intros [= <- <-]. exists (sg ++ p1). split; [|split].
      * now rewrite <- !app_assoc.
      * apply Forall_app; split; assumption.
      * exists c, r0. simpl. split; [exact Hcr | now left].
  - destruct (case_insensitive_match r (of_ascii "nan")) as [r1|] eqn:E2;
      [|discriminate].
    destruct (case_insensitive_match_inv _ _ _ E2) as (p1 & -> & Hp1).
    pose proof (keyword_numchars p1 _ Hp1 eq_refl) as Hn1.
    intros [= <- <-]. exists (sg ++ p1). split; [|split].
    + now rewrite <- !app_assoc.
    + apply Forall_app; split; assumption.
    + destruct p1 as [|c p1]; [discriminate|]. injection Hp1 as Hc _.
      exists c, (p1 ++ r1). simpl. split; [reflexivity | now right].
Qed.


(** *** What [float] accepts *)

Lemma float_inner_inv t x :
  float_from_string_inner t = Ok x ->
  exists ws1 body ws2,
    t = ws1 ++ body ++ ws2
    /\ Forall (fun c => Py_ISSPACE c = true) ws1
    /\ Forall (fun c => Py_ISSPACE c = true) ws2
    /\ ascii_strtod body = Some (x, []).
Proof.
  unfold float_from_string_inner.
  pose proof (takewhile_dropwhile Py_ISSPACE t) as Ht.
  pose proof (takewhile_Forall Py_ISSPACE t) as Hw1.
  destruct (dropwhile Py_ISSPACE t) as [|c s1] eqn:E; [discriminate|].
  pose proof (takewhile_dropwhile Py_ISSPACE (rev (c :: s1))) as Hr.
  pose proof (takewhile_Forall Py_ISSPACE (rev (c :: s1))) as Hw2.
  set (body := rev (dropwhile Py_ISSPACE (rev (c :: s1)))) in *.
  destruct (ascii_strtod body) as [[y [|? ?]]|] eqn:Ex; try discriminate.
  intros [= <-].
  exists (takewhile Py_ISSPACE t), body, (rev (takewhile Py_ISSPACE (rev (c :: s1)))).
  split; [|split; [exact Hw1 | split; [now apply Forall_rev | exact Ex]]].
  rewrite <- Ht at 1. f_equal.
  apply (f_equal (@rev _)) in Hr. rewrite rev_app_distr, rev_involutive in Hr.
  subst body. now rewrite Hr.
Qed.

Lemma strip_underscores_removes prev a t :
  strip_underscores prev a = Some t -> t = replace_del UNDERSCORE a.
Proof.
  revert prev t. induction a as [|c a IH]; intros prev t; simpl.
  - destruct (prev =? UNDERSCORE)%N; [discriminate | now intros [= <-]].
  - unfold replace_del. simpl. fold (replace_del UNDERSCORE a).
    destruct (N.eqb_spec c UNDERSCORE) as [->|Hc]; simpl.
    + destruct (is_ascii_digit prev); [apply IH | discriminate].
    + destruct ((prev =? UNDERSCORE)%N && negb (is_ascii_digit c)); [discriminate|].
      destruct (strip_underscores c a) as [t'|] eqn:E; [|discriminate].
      simpl. intros [= <-]. f_equal. now apply IH with (prev := c).
Qed.

Lemma replace_del_absent x a :
  existsb (fun c => (c =? x)%N) a = false -> replace_del x a = a.
Proof.
  intros Ha. apply replace_del_keep. apply Forall_forall. intros c Hc ->.
  apply list_elem_of_In in Hc.
  assert (existsb (fun c => (c =? x)%N) a = true) as Ht
    by (apply existsb_exists; exists x; split; [exact Hc | apply N.eqb_refl]).
  congruence.
Qed.

(** [float(s)] returns only if, once the underscores are gone, the ASCII
    form of [s] is a number between ASCII whitespace. *)
Lemma PyFloat_inv s x :
  PyFloat_FromString s = Ok x ->
  exists ws1 body ws2,
    replace_del UNDERSCORE (TransformDecimalAndSpaceToASCII s) = ws1 ++ body ++ ws2
    /\ Forall (fun c => Py_ISSPACE c = true) ws1
    /\ Forall (fun c => Py_ISSPACE c = true) ws2
    /\ ascii_strtod body = Some (x, []).
Proof.
  unfold PyFloat_FromString.
  destruct (existsb _ (TransformDecimalAndSpaceToASCII s)) eqn:E.
  - destruct (strip_underscores 0 (TransformDecimalAndSpaceToASCII s)) as [t|] eqn:Et;
      [|discriminate].
    apply strip_underscores_removes in Et as ->. apply float_inner_inv.
  - rewrite (replace_del_absent _ _ E). apply float_inner_inv.
Qed.

Lemma replace_del_In x a c : List.In c (replace_del x a) <-> List.In c a /\ c <> x.
Proof.
  unfold replace_del. rewrite List.filter_In, negb_true_iff, N.eqb_neq. tauto.
Qed.



End FloatParsing.

(** ** The syntax of [float]

    [PyFloat_FromString], which follows the C code, accepts exactly the
    strings of [float_syntax], with the values given there. *)

Section FloatSyntax.
Context `{UnicodeData}.

(** *** The number parser against the grammar *)


Lemma takewhile_none (p : codepoint -> bool) r :
  match r with c :: _ => p c = false | [] => True end ->
  takewhile p r = [] /\ dropwhile p r = r.
Proof. destruct r as [|c r]; simpl; [auto|]. now intros ->. Qed.












(** *** The keywords *)









(** *** Whitespace around the number *)




(** *** Underscores *)








(** *** Digits and spaces outside ASCII *)







End FloatSyntax.

(** ** The value normalizer *)

Section Normalizer.
Context `{UnicodeData}.



Lemma strip_subset s c : List.In c (strip s) -> List.In c s.
Proof.
  unfold strip, rstrip, lstrip. intros Hin. apply in_rev in Hin.
  assert (Hsub : forall (p : codepoint -> bool) l,
            List.In c (dropwhile p l) -> List.In c l).
  { intros p l. induction l as [|x l IH]; simpl; [tauto|].
    destruct (p x); [intros Hl; right; now apply IH | tauto]. }
  apply Hsub in Hin. apply in_rev in Hin. now apply Hsub in Hin.
Qed.




Lemma digits_clean ip :
  Forall (fun c => is_ascii_digit c = true) ip ->
  Forall (fun c => Py_UNICODE_ISSPACE c = false) ip.
Proof. intros Hip. eapply Forall_impl; [exact Hip|]. exact digit_not_uspace. Qed.



Lemma parse_percent_never_raises val : exists r, parse_percent val = Ok r.
Proof.
  unfold parse_percent. destruct (negb (truthy_opt val)); [eauto|].
  destruct (PyFloat_FromString _); simpl; eauto.
Qed.

Lemma parse_currency_never_raises val : exists r, parse_currency val = Ok r.
Proof.
  unfold parse_currency. destruct (negb (truthy_opt val)); [eauto|].
  destruct (PyFloat_FromString _); simpl; eauto.
Qed.

(** *** The parsers against the syntax of [float] *)












End Normalizer.

(** ** The batch *)

Section Batch.
Context `{UnicodeData}.

(** A deck that loads gives a row: nothing after the loading can raise. *)
Lemma process_loaded prs nm :
  process_pptx_bytes (Pptx prs) nm = Ok (row_of_deck prs nm).
Proof.
  unfold process_pptx_bytes, row_of_deck.
  cbn [load_presentation mbind result_bind].
  set (kpis := extract_kpis_from_text (full_text_of prs)). cbv zeta.
  repeat match goal with
  | |- context [parse_percent ?v] =>
      destruct (parse_percent_never_raises v) as [? ->];
      cbn [mbind result_bind returned]
  | |- context [parse_currency ?v] =>
      destruct (parse_currency_never_raises v) as [? ->];
      cbn [mbind result_bind returned]
  end.
  reflexivity.
Qed.

Lemma process_inv b nm row :
  process_pptx_bytes b nm = Ok row -> exists prs, b = Pptx prs /\ row = row_of_deck prs nm.
Proof.
  destruct b as [prs|]; [|discriminate].
  rewrite process_loaded. intros [= <-]. eauto.
Qed.

Lemma process_names b nm row :
  process_pptx_bytes b nm = Ok row -> PPT_File row = nm.
Proof. intros (prs & _ & ->)%process_inv. reflexivity. Qed.

Lemma row_of_name d row : row_of d = Some row -> PPT_File row = fst d.
Proof.
  unfold row_of. destruct (process_pptx_bytes (snd d) (fst d)) eqn:E; [|discriminate].
  intros [= <-]. now apply process_names in E.
Qed.

(** The loop over the uploaded decks. *)
Lemma upload_loop (ups : list UploadedFile) (st : state) :
  let docs := uploaded_documents ups in
  let st' := fold_left upload_step ups st in
  rows st' = rows st ++ omap row_of docs
  /\ seen st' = names_of_rows docs ∪ seen st
  /\ log st' = log st ++ failures warning_failed docs.
Proof.
  revert st. induction ups as [|f ups IH]; intros st; simpl.
  - unfold names_of_rows, failures. simpl.
    rewrite !app_nil_r. repeat split. now rewrite (left_id_L ∅ (∪)).
  - destruct (IH (upload_step st f)) as (Hr & Hs & Hl).
    rewrite Hr, Hs, Hl. clear IH Hr Hs Hl.
    unfold names_of_rows, failures, upload_step, row_of. simpl.
    destruct (process_pptx_bytes (read f) (name f)) as [row|e]; simpl.
    + rewrite <- app_assoc. repeat split.
      rewrite (assoc_L (∪)). f_equal. apply (comm_L (∪)).
    + rewrite <- app_assoc. repeat split.
Qed.

(** The loop over the names of the archive. *)
Lemma archive_loop entries (names : list str) (st : state) :
  let docs := archive_documents entries (seen st) names in
  let st' := fold_left (zip_step entries) names st in
  rows st' = rows st ++ omap row_of docs
  /\ log st' = log st ++ failures warning_failed_zip docs.
Proof.
  revert st. induction names as [|nm names IH]; intros st; simpl.
  - unfold failures. simpl. now rewrite !app_nil_r.
  - unfold zip_step at 2 4.
    destruct (is_pptx_name nm && negb (bool_decide (nm ∈ seen st))); [|apply IH].
    unfold row_of at 1. simpl.
    destruct (process_pptx_bytes (zf_read entries nm) nm) as [row|e] eqn:E.
    + destruct (IH {| rows := rows st ++ [row]; seen := {[nm]} ∪ seen st;
                      log := log st |}) as (Hr & Hl).
      simpl in Hr, Hl. rewrite Hr, Hl. unfold failures, row_of. simpl.
      rewrite E. simpl. rewrite <- app_assoc. now split.
    + destruct (IH {| rows := rows st; seen := seen st;
                      log := log st ++ [warning_failed_zip nm] |}) as (Hr & Hl).
      simpl in Hr, Hl. rewrite Hr, Hl. unfold failures, row_of. simpl.
      rewrite E. simpl. rewrite <- app_assoc. now split.
Qed.

Lemma uploads_seen (ups : list UploadedFile) :
  seen (fold_left upload_step ups init) = names_of_rows (uploaded_documents ups).
Proof.
  destruct (upload_loop ups init) as (_ & Hs & _). rewrite Hs. simpl.
  apply (right_id_L ∅ (∪)).
Qed.

Lemma process_files_rows ups zip :
  rows (process_files ups zip) = omap row_of (processed_documents ups zip).
Proof.
  unfold process_files, processed_documents, archived_documents.
  destruct (upload_loop ups init) as (Hr & _ & _). simpl in Hr.
  destruct zip as [[entries|]|]; simpl; rewrite ?app_nil_r; try exact Hr.
  destruct (archive_loop entries (namelist entries) (fold_left upload_step ups init))
    as (Hz & _).
  rewrite Hz, Hr, uploads_seen, omap_app. reflexivity.
Qed.


(** *** Which entry of the archive is read *)

(** Of several entries with one name, [zf.read] returns the last. *)
Lemma zf_read_last entries1 nm b entries2 :
  nm ∉ namelist entries2 -> zf_read (entries1 ++ (nm, b) :: entries2) nm = b.
Proof.
  intros Hnm. unfold zf_read. rewrite fold_left_app. simpl.
  rewrite bool_decide_eq_true_2 by reflexivity.
  clear entries1. revert Hnm. generalize b as found.
  induction entries2 as [|e entries2 IH]; intros found Hnm; [reflexivity|].
  simpl in Hnm |- *. apply not_elem_of_cons in Hnm as [Hne Hnm].
  rewrite bool_decide_eq_false_2 by congruence. now apply IH.
Qed.

Lemma archive_documents_read entries seen0 names d :
  d ∈ archive_documents entries seen0 names ->
  fst d ∈ names /\ is_pptx_name (fst d) = true /\ snd d = zf_read entries (fst d).
Proof.
  revert seen0. induction names as [|nm names IH]; intros seen0; simpl.
  - intros Hd. inversion Hd.
  - destruct (is_pptx_name nm) eqn:Ep; simpl.
    + case_bool_decide as Hseen; simpl.
      * intros (Hin & Hp & Hr)%IH. split; [now apply list_elem_of_further | now split].
      * intros [->|Hd]%elem_of_cons.
        -- simpl. split; [apply list_elem_of_here | now split].
        -- apply IH in Hd as (Hin & Hp & Hr).
           split; [now apply list_elem_of_further | now split].
    + intros (Hin & Hp & Hr)%IH. split; [now apply list_elem_of_further | now split].
Qed.

Lemma archived_documents_read ups zip d :
  d ∈ archived_documents ups zip ->
  exists entries, zip = Some (Zip entries) /\ fst d ∈ namelist entries
                  /\ is_pptx_name (fst d) = true
                  /\ snd d = zf_read entries (fst d).
Proof.
  unfold archived_documents. destruct zip as [[entries|]|];
    [|intros Hd; inversion Hd..].
  intros Hd%archive_documents_read. eauto.
Qed.






(** *** Names *)

Lemma rows_names_seen (docs : list document) r :
  r ∈ omap row_of docs -> PPT_File r ∈ names_of_rows docs.
Proof.
  intros (d & Hd & Hr)%list_elem_of_omap.
  unfold names_of_rows. apply elem_of_list_to_set.
  apply list_elem_of_fmap. exists d. split; [now apply row_of_name|].
  apply list_elem_of_In, List.filter_In. split; [now apply list_elem_of_In|].
  apply bool_decide_eq_true_2. rewrite Hr. eauto.
Qed.

Lemma rows_names_sub (docs : list document) x :
  x ∈ List.map PPT_File (omap row_of docs) -> x ∈ List.map fst docs.
Proof.
  intros (r & -> & (d & Hd & Hr)%list_elem_of_omap)%list_elem_of_fmap.
  apply list_elem_of_fmap. exists d. split; [now apply row_of_name | exact Hd].
Qed.

Lemma rows_names_NoDup (docs : list document) :
  NoDup (List.map fst docs) -> NoDup (List.map PPT_File (omap row_of docs)).
Proof.
  induction docs as [|d docs IH]; simpl; [constructor|].
  intros [Hd Hnd]%NoDup_cons.
  destruct (row_of d) as [row|] eqn:E; [|now apply IH].
  simpl. apply NoDup_cons. split; [|now apply IH].
  rewrite (row_of_name d row E). intros Hin. apply Hd.
  now apply rows_names_sub.
Qed.

(** The rows that the archive adds have fresh, pairwise different names. *)
Lemma archive_loop_names entries (names : list str) (st : state) :
  (forall r, r ∈ rows st -> PPT_File r ∈ seen st) ->
  exists zrows,
    rows (fold_left (zip_step entries) names st) = rows st ++ zrows
    /\ NoDup (List.map PPT_File zrows)
    /\ (forall r, r ∈ zrows -> PPT_File r ∉ seen st).
Proof.
  revert st. induction names as [|nm names IH]; intros st Hinv; simpl.
  - exists []. rewrite app_nil_r. repeat split; [constructor|].
    intros r Hr. inversion Hr.
  - unfold zip_step at 2.
    destruct (is_pptx_name nm); simpl; [|now apply IH].
    case_bool_decide as Hseen; simpl; [now apply IH|].
    destruct (process_pptx_bytes (zf_read entries nm) nm) as [row|e] eqn:E.
    + apply process_names in E.
      destruct (IH {| rows := rows st ++ [row]; seen := {[nm]} ∪ seen st;
                      log := log st |}) as (z & Hz & Hnd & Hfresh).
      { simpl. intros r [Hr|Hr]%elem_of_app.
        - apply elem_of_union_r. now apply Hinv.
        - apply list_elem_of_singleton in Hr as ->. rewrite E.
          apply elem_of_union_l. now apply elem_of_singleton. }
      simpl in Hz, Hfresh. exists (row :: z). split; [|split].
      * rewrite Hz, <- app_assoc. reflexivity.
      * simpl. apply NoDup_cons. split; [|exact Hnd].
        intros (r & Hr & Hin)%list_elem_of_fmap.
        apply (Hfresh r Hin). rewrite <- Hr, E.
        apply elem_of_union_l. now apply elem_of_singleton.
      * intros r [->|Hr]%elem_of_cons; [now rewrite E|].
        intros Hin. apply (Hfresh r Hr). now apply elem_of_union_r.
    + apply (IH {| rows := rows st; seen := seen st;
                   log := log st ++ [warning_failed_zip nm] |}). exact Hinv.
Qed.

Lemma uploads_invariant (ups : list UploadedFile) r :
  r ∈ rows (fold_left upload_step ups init) ->
  PPT_File r ∈ seen (fold_left upload_step ups init).
Proof.
  rewrite uploads_seen. destruct (upload_loop ups init) as (Hr & _ & _).
  rewrite Hr. simpl. apply rows_names_seen.
Qed.

Lemma archive_rows ups zip :
  exists zrows,
    rows (process_files ups zip) = rows (process_files ups None) ++ zrows
    /\ NoDup (List.map PPT_File zrows)
    /\ (forall r, r ∈ zrows ->
          PPT_File r ∉ List.map PPT_File (rows (process_files ups None))).
Proof.
  unfold process_files. destruct zip as [[entries|]|]; simpl.
  - destruct (archive_loop_names entries (namelist entries)
                (fold_left upload_step ups init) (uploads_invariant ups))
      as (z & Hz & Hnd & Hfresh).
    exists z. split; [exact Hz | split; [exact Hnd|]].
    intros r Hr (r0 & Heq & Hr0)%list_elem_of_fmap.
    apply (Hfresh r Hr). rewrite Heq. now apply uploads_invariant.
  - exists []. rewrite app_nil_r. repeat split; [constructor|].
    intros r Hr. inversion Hr.
  - exists []. rewrite app_nil_r. repeat split; [constructor|].
    intros r Hr. inversion Hr.
Qed.

(** The three ways of a step of the loop over the archive. *)
Lemma zip_step_seen entries st nm :
  nm ∈ seen st -> zip_step entries st nm = st.
Proof.
  intros Hin. unfold zip_step.
  rewrite (bool_decide_eq_true_2 _ Hin). now rewrite andb_false_r.
Qed.

Lemma zip_step_new entries st nm prs :
  is_pptx_name nm = true -> nm ∉ seen st -> zf_read entries nm = Pptx prs ->
  zip_step entries st nm
  = {| rows := rows st ++ [row_of_deck prs nm];
       seen := {[ nm ]} ∪ seen st;
       log := log st |}.
Proof.
  intros Hp Hseen Hread. unfold zip_step.
  rewrite Hp, (bool_decide_eq_false_2 _ Hseen), Hread, process_loaded. reflexivity.
Qed.


(** Every row that the archive adds is the row of the deck that is the
    archive's last entry of the row's name. *)
Lemma archive_rows_read ups entries r :
  r ∈ rows (process_files ups (Some (Zip entries))) ->
  r ∈ rows (process_files ups None)
  \/ exists prs, PPT_File r ∈ namelist entries
                 /\ zf_read entries (PPT_File r) = Pptx prs
                 /\ r = row_of_deck prs (PPT_File r).
Proof.
  rewrite !process_files_rows. unfold processed_documents.
  rewrite omap_app. simpl archived_documents at 2. rewrite app_nil_r.
  intros [Hr|Hr]%elem_of_app; [now left|right].
  apply list_elem_of_omap in Hr as (d & Hd & Hrow).
  apply archived_documents_read in Hd as (es & [= <-] & Hin & _ & Hread).
  unfold row_of in Hrow.
  destruct (process_pptx_bytes (snd d) (fst d)) as [row|e] eqn:E; [|discriminate].
  injection Hrow as ->. apply process_inv in E as (prs & Hb & ->).
  exists prs. simpl. split; [exact Hin | split; [congruence | reflexivity]].
Qed.

(** C1, as the code has it.  In the loop over the archive a listed name
    that has already given a row is skipped: the state does not change.
    The rows that the archive adds have names that differ from each other
    and from the names of the uploads' rows.  When the uploads have
    pairwise different names, the names in the table are pairwise
    different.  What is read under a name is the archive's last entry of
    that name, so every row that the archive adds is the row of the last
    entry of its name, whichever listing of the name came first. *)
Theorem C1_archive_deduplication :
  (forall entries st nm, nm ∈ seen st -> zip_step entries st nm = st)
  /\ (forall ups zip,
        exists zrows,
          rows (process_files ups zip) = rows (process_files ups None) ++ zrows
          /\ NoDup (List.map PPT_File zrows)
          /\ (forall r, r ∈ zrows ->
                PPT_File r ∉ List.map PPT_File (rows (process_files ups None))))
  /\ (forall ups zip,
        NoDup (List.map name ups) ->
        NoDup (List.map PPT_File (rows (process_files ups zip))))
  /\ (forall entries1 nm b entries2,
        nm ∉ namelist entries2 ->
        zf_read (entries1 ++ (nm, b) :: entries2) nm = b)
  /\ (forall ups entries r,
        r ∈ rows (process_files ups (Some (Zip entries))) ->
        r ∈ rows (process_files ups None)
        \/ exists prs, PPT_File r ∈ namelist entries
                       /\ zf_read entries (PPT_File r) = Pptx prs
                       /\ r = row_of_deck prs (PPT_File r)).
Proof.
  split; [exact zip_step_seen|].
  split; [exact archive_rows|].
  split; [|split; [exact zf_read_last | exact archive_rows_read]].
  intros ups zip Hnd.
  destruct (archive_rows ups zip) as (z & -> & Hz & Hfresh).
  rewrite List.map_app. apply NoDup_app. split; [|split; [|exact Hz]].
  - rewrite process_files_rows. unfold processed_documents. simpl.
    rewrite app_nil_r. apply rows_names_NoDup.
    unfold uploaded_documents. rewrite List.map_map. exact Hnd.
  - intros x Hx (r & -> & Hr)%list_elem_of_fmap. exact (Hfresh r Hr Hx).
Qed.

(** C10.  A document whose processing raises leaves [seen] and the rows
    as they were, in the loop over the uploads and in the loop over the
    archive.  So after an upload that failed, an archive entry of the same
    name is processed and gives the row of its deck. *)
Theorem C10_failed_name_not_reserved :
  (forall st f e,
     process_pptx_bytes (read f) (name f) = Raise e ->
     seen (upload_step st f) = seen st /\ rows (upload_step st f) = rows st)
  /\ (forall entries st nm e,
        process_pptx_bytes (zf_read entries nm) nm = Raise e ->
        seen (zip_step entries st nm) = seen st
        /\ rows (zip_step entries st nm) = rows st)
  /\ (forall nm prs,
        is_pptx_name nm = true ->
        rows (process_files [ {| name := nm; read := Garbage |} ]
                (Some (Zip [(nm, Pptx prs)])))
        = [row_of_deck prs nm]).
Proof.
  split; [|split].
  - intros st f e E. unfold upload_step. rewrite E. now split.
  - intros entries st nm e E. unfold zip_step.
    destruct (is_pptx_name nm && negb (bool_decide (nm ∈ seen st))); [|now split].
    rewrite E. now split.
  - intros nm prs Hnm. unfold process_files. simpl fold_left at 2.
    unfold upload_step at 1. simpl. unfold zip_step. simpl.
    rewrite Hnm. simpl.
    rewrite (bool_decide_eq_false_2 (nm ∈ (∅ : gset str))) by apply not_elem_of_empty.
    simpl. unfold zf_read. simpl. rewrite bool_decide_eq_true_2 by reflexivity.
    rewrite process_loaded. reflexivity.
Qed.

End Batch.

(** ** The values of a row *)

Section RowValues.
Context `{UnicodeData}.

(** What a match captures is made of characters that the matchers inside
    the group accept. *)
Lemma match_here_captured (P : codepoint -> Prop) its :
  forall s rec acc g,
    (forall x, List.In x (recorded its rec) ->
               forall c, match_single x c = true -> P c) ->
    Forall P acc ->
    match_here its s rec acc = Some g -> Forall P g.
Proof.
  induction its as [|it its IH]; intros s rec acc g Hrec Hacc.
  - simpl. intros [= <-]. now apply Forall_rev.
  - destruct it as [x|x| |]; simpl in Hrec |- *.
    + destruct s as [|c s']; [discriminate|].
      destruct (match_single x c) eqn:Ec; [|discriminate].
      apply IH.
      * intros y Hy. apply Hrec, in_or_app. now right.
      * destruct rec; [|exact Hacc]. constructor; [|exact Hacc].
        apply (Hrec x); [now left | exact Ec].
    + assert (Hrest : forall y, List.In y (recorded its rec) ->
                forall c, match_single y c = true -> P c).
      { intros y Hy. apply Hrec, in_or_app. now right. }
      revert acc Hacc. induction s as [|c s' IHs]; intros acc Hacc.
      * now apply IH.
      * destruct (match_single x c) eqn:Ec; [|now apply IH].
        match goal with
        | |- match ?m with _ => _ end = _ -> _ => destruct m as [g'|] eqn:Eg
        end; [|now apply IH].
        intros [= <-]. revert Eg. apply IHs.
        destruct rec; [|exact Hacc]. constructor; [|exact Hacc].
        apply (Hrec x); [now left | exact Ec].
    + now apply IH.
    + now apply IH.
Qed.

Lemma search_captured (P : codepoint -> Prop) its s g :
  (forall x, List.In x (recorded its false) ->
             forall c, match_single x c = true -> P c) ->
  search its s = Some g -> Forall P g.
Proof.
  intros Hrec. induction s as [|c s IH]; simpl.
  - destruct (match_here its [] false []) eqn:E; [|discriminate].
    intros [= <-]. revert E. now apply match_here_captured.
  - destruct (match_here its (c :: s) false []) eqn:E; [|exact IH].
    intros [= <-]. revert E. now apply match_here_captured.
Qed.

Lemma sre_lower_percent c : sre_lower c = PERCENT -> c = PERCENT.
Proof.
  unfold sre_lower, PERCENT. intros Hc.
  char_cases; cbn [andb orb] in Hc; lia.
Qed.

Lemma captures_number_char x c :
  captures_number x = true -> match_single x c = true -> kpi_char c = true.
Proof.
  unfold kpi_char. destruct x as [p|ms|ms|ms]; simpl; try discriminate.
  - intros ->%N.eqb_eq. change (sre_lower PERCENT) with PERCENT.
    change (ignorecase_fixes PERCENT) with (@nil N). simpl. rewrite orb_false_r.
    intros ->%N.eqb_eq%sre_lower_percent. apply orb_true_r.
  - destruct ms as [|[| |] [|[p| |] [|? ?]]]; try discriminate.
    unfold in_members. simpl. rewrite orb_false_r.
    intros [->%N.eqb_eq | ->%N.eqb_eq]%orb_true_iff
           [-> | ->%N.eqb_eq]%orb_true_iff; try reflexivity;
      rewrite ?orb_true_r; reflexivity.
Qed.

Lemma PATTERNS_capture_numbers :
  forallb (fun kp => forallb captures_number (recorded (snd kp) false)) PATTERNS = true.
Proof. vm_compute. reflexivity. Qed.

Lemma pattern_captured k pat text g :
  (k, pat) ∈ PATTERNS -> search pat text = Some g ->
  Forall (fun c => kpi_char c = true) g.
Proof.
  intros Hin. apply search_captured. intros x Hx c.
  apply captures_number_char.
  pose proof PATTERNS_capture_numbers as Hall.
  rewrite forallb_forall in Hall. apply list_elem_of_In in Hin.
  specialize (Hall _ Hin). simpl in Hall.
  rewrite forallb_forall in Hall. now apply Hall.
Qed.

Lemma search_all_Some text patterns (data : gmap string str) k g :
  search_all text patterns data !! k = Some g ->
  data !! k = Some g \/ exists pat, (k, pat) ∈ patterns /\ search pat text = Some g.
Proof.
  unfold search_all. revert data.
  induction patterns as [|[k' pat'] l IH]; intros data; simpl; [now left|].
  intros [Hd|(pat & Hin & Hs)]%IH.
  - destruct (search pat' text) as [g'|] eqn:E; [|now left].
    simpl in Hd. destruct (decide (k' = k)) as [->|Hne].
    + rewrite lookup_insert_eq in Hd. injection Hd as <-.
      right. exists pat'. split; [apply list_elem_of_here | exact E].
    + rewrite lookup_insert_ne in Hd by exact Hne. now left.
  - right. exists pat. split; [now apply list_elem_of_further | exact Hs].
Qed.

(** Every value of the result map is made of digits, points, commas and
    signs [%]. *)
Lemma kpis_chars text k g :
  extract_kpis_from_text text !! k = Some g ->
  Forall (fun c => kpi_char c = true) g.
Proof.
  unfold extract_kpis_from_text.
  change (fold_left _ PATTERNS ∅) with (search_all text PATTERNS ∅).
  set (data := search_all text PATTERNS ∅).
  assert (Hdata : forall k' g', data !! k' = Some g' ->
            Forall (fun c => kpi_char c = true) g').
  { intros k' g' [Hd|(pat & Hin & Hs)]%search_all_Some.
    - rewrite lookup_empty in Hd. discriminate.
    - now apply (pattern_captured k' pat text). }
  destruct (decide (k = "Quality Score (alt)")) as [->|Hne];
    [now rewrite lookup_delete_eq|].
  rewrite lookup_delete_ne by congruence.
  destruct (data !! "Quality Score") as [q|] eqn:Eq; [apply Hdata|].
  destruct (data !! "Quality Score (alt)") as [alt|] eqn:Ea; [|apply Hdata].
  destruct (decide (k = "Quality Score")) as [->|Hne'].
  - rewrite lookup_insert_eq. intros [= <-]. now apply (Hdata _ _ Ea).
  - rewrite lookup_insert_ne by congruence. apply Hdata.
Qed.

Lemma kpi_char_cases c :
  kpi_char c = true ->
  Py_UNICODE_ISDECIMAL c = true \/ c = DOT \/ c = COMMA \/ c = PERCENT.
Proof.
  unfold kpi_char. rewrite !orb_true_iff, !N.eqb_eq. tauto.
Qed.

Lemma kpi_char_plain c : (c < 0x80)%N -> kpi_char c = true -> plain_char c = true.
Proof.
  intros Hc. unfold kpi_char, plain_char. now rewrite isdecimal_ascii.
Qed.

Lemma transform_kpi_chars t :
  Forall (fun c => kpi_char c = true) t ->
  Forall (fun c => plain_char c = true) (TransformDecimalAndSpaceToASCII t).
Proof.
  unfold TransformDecimalAndSpaceToASCII. destruct (forallb _ t) eqn:Ea.
  - intros Ht. rewrite forallb_forall in Ea.
    apply Forall_forall. intros c Hc. apply kpi_char_plain.
    + apply N.ltb_lt, Ea. now apply list_elem_of_In.
    + rewrite Forall_forall in Ht. now apply Ht.
  - clear Ea. induction 1 as [|c t Hc _ IH]; simpl; [constructor|].
    destruct (N.ltb_spec c 127) as [Hlt|Hge].
    + constructor; [|exact IH]. apply kpi_char_plain; [lia | exact Hc].
    + apply kpi_char_cases in Hc as [Hd | [ -> | [ -> | -> ]]];
        try (unfold DOT, COMMA, PERCENT in Hge; lia).
      unfold Py_UNICODE_ISDECIMAL in Hd.
      destruct (Py_UNICODE_TODECIMAL c) as [d|] eqn:Ed; [|discriminate].
      rewrite (todecimal_not_space c d Ed).
      constructor; [|exact IH].
      pose proof (todecimal_range c d Ed) as Hd10.
      unfold plain_char. replace (is_ascii_digit (48 + d)) with true; [reflexivity|].
      symmetry. apply digit_range. lia.
Qed.

Lemma plain_char_not_letter c :
  plain_char c = true ->
  c <> MINUS /\ Py_TOLOWER c <> 0x69%N /\ Py_TOLOWER c <> 0x6E%N.
Proof.
  unfold plain_char, is_ascii_digit, Py_TOLOWER, MINUS, DOT, COMMA, PERCENT.
  intros Hc. char_cases; cbn [andb orb] in Hc |- *; try discriminate; repeat split; lia.
Qed.

(** A string of digits, points, commas and signs [%] that [float] accepts
    is a number that is not negative. *)
Lemma PyFloat_kpi_pos t x :
  Forall (fun c => kpi_char c = true) t ->
  PyFloat_FromString t = Ok x -> posfloat x = true.
Proof.
  intros Ht (ws1 & body & ws2 & Heq & _ & _ & Hx)%PyFloat_inv.
  assert (Hbody : Forall (fun c => plain_char c = true) body).
  { apply transform_kpi_chars in Ht. rewrite Forall_forall in Ht.
    apply Forall_forall. intros c Hc. apply Ht. apply list_elem_of_In.
    apply (replace_del_In UNDERSCORE). rewrite Heq.
    apply in_or_app. right. apply in_or_app. left. now apply list_elem_of_In. }
  clear Heq Ht. unfold ascii_strtod in Hx.
  destruct (parse_sign body) as [neg r] eqn:Es.
  destruct (parse_sign_inv _ _ _ Es) as (pre & Hsplit & _ & Hneg).
  destruct (dg_strtod body) as [[y rest]|] eqn:E.
  - injection Hx as -> ->.
    destruct (dg_strtod_inv _ _ _ E) as (_ & _ & _ & m & e & ->).
    rewrite Es. simpl. destruct neg; [|apply float_of_decimal_pos].
    destruct (Hneg eq_refl) as [s' ->].
    inversion Hbody as [|? ? Hm _]; subst. discriminate.
  - apply parse_inf_or_nan_inv in Hx as (_ & _ & _ & c & r' & Hc & Hl).
    rewrite Es in Hc. simpl in Hc. subst r body.
    apply Forall_app in Hbody as [_ Hbody].
    inversion Hbody as [|? ? Hp _]; subst.
    apply plain_char_not_letter in Hp. tauto.
Qed.

Lemma parse_percent_pos v :
  (forall g, v = Some g -> Forall (fun c => kpi_char c = true) g) ->
  absent_or_pos (returned (parse_percent v)) = true.
Proof.
  intros Hv. unfold parse_percent.
  destruct (negb (truthy_opt v)); [reflexivity|].
  destruct v as [g|]; simpl default.
  - destruct (PyFloat_FromString (strip (replace_del PERCENT g))) as [x|e] eqn:E;
      [|reflexivity].
    simpl. revert E. apply PyFloat_kpi_pos.
    specialize (Hv g eq_refl). rewrite Forall_forall in Hv.
    apply Forall_forall. intros c Hc. apply Hv, list_elem_of_In.
    apply list_elem_of_In, strip_subset, replace_del_In in Hc. tauto.
  - destruct (PyFloat_FromString (strip (replace_del PERCENT []))) as [x|e] eqn:E;
      [|reflexivity].
    simpl. revert E. apply PyFloat_kpi_pos. constructor.
Qed.

Lemma parse_currency_pos v :
  (forall g, v = Some g -> Forall (fun c => kpi_char c = true) g) ->
  absent_or_pos (returned (parse_currency v)) = true.
Proof.
  intros Hv. unfold parse_currency.
  destruct (negb (truthy_opt v)); [reflexivity|].
  destruct v as [g|]; simpl default.
  - destruct (PyFloat_FromString (replace_del SPACE (replace_del COMMA g)))
      as [x|e] eqn:E; [|reflexivity].
    simpl. revert E. apply PyFloat_kpi_pos.
    specialize (Hv g eq_refl). rewrite Forall_forall in Hv.
    apply Forall_forall. intros c Hc. apply Hv, list_elem_of_In.
    apply list_elem_of_In, replace_del_In in Hc as [Hc _].
    apply replace_del_In in Hc. tauto.
  - destruct (PyFloat_FromString (replace_del SPACE (replace_del COMMA [])))
      as [x|e] eqn:E; [|reflexivity].
    simpl. revert E. apply PyFloat_kpi_pos. constructor.
Qed.

(** The seven values of a row are absent or non-negative numbers. *)
Lemma row_of_deck_values prs nm : raw_values_ok (row_of_deck prs nm) = true.
Proof.
  unfold raw_values_ok, row_of_deck. cbv zeta. cbn [Achievement_Rate Revenue_Target
    Achieved Revenue_Reached Target_Of Revenue_Pct Quality_Score].
  rewrite !parse_percent_pos, !parse_currency_pos;
    try (intros g Hg; exact (kpis_chars _ _ _ Hg)).
  reflexivity.
Qed.

End RowValues.

(** ** The values of the table *)

Section TableValues.
Context `{UnicodeData}.

Lemma absent_or_pos_missing v : absent_or_pos v = true -> missing_or_pos v = true.
Proof. destruct v as [x|]; simpl; [intros ->|]; reflexivity. Qed.

Lemma computed_rate_sign ba bt :
  absent_or_pos ba = true -> absent_or_pos bt = true ->
  missing_or_pos (computed_rate ba bt) = true.
Proof.
  unfold computed_rate. destruct ba as [a|], bt as [t|]; try reflexivity.
  simpl absent_or_pos. intros Ha Ht.
  destruct (notnull (Some a) && (notnull (Some t) && nonzero t)); [|reflexivity].
  simpl. apply round2_sign, fmul_sign; [|reflexivity]. now apply fdiv_sign.
Qed.

(** After the pass the values of a row are absent or non-negative
    numbers; the rate can also be NaN. *)
Lemma reconcile_row_values (r : DFRow) :
  absent_or_pos (df_Achievement_Rate r) = true ->
  absent_or_pos (df_Revenue_Target r) = true ->
  absent_or_pos (df_Achieved r) = true ->
  absent_or_pos (df_Revenue_Reached r) = true ->
  absent_or_pos (df_Target_Of r) = true ->
  absent_or_pos (df_Revenue_Pct r) = true ->
  absent_or_pos (df_Quality_Score r) = true ->
  row_values_ok (reconcile_row r) = true.
Proof.
  intros H1 H2 H3 H4 H5 H6 H7.
  assert (Hba : absent_or_pos (best_achieved r) = true)
    by (unfold best_achieved; now destruct (notnull (df_Achieved r))).
  assert (Hbt : absent_or_pos (best_target r) = true)
    by (unfold best_target; now destruct (notnull (df_Revenue_Target r))).
  unfold row_values_ok, reconcile_row. simpl.
  rewrite H2, H3, H4, H5, H6, H7, Hba, Hbt. rewrite !andb_true_r.
  unfold reconciled_rate.
  destruct (notnull (df_Achievement_Rate r)); [now apply absent_or_pos_missing|].
  pose proof (computed_rate_sign _ _ Hba Hbt) as Hc.
  destruct (computed_rate (best_achieved r) (best_target r)); [exact Hc|].
  destruct (notnull (df_Revenue_Pct r)); [now apply absent_or_pos_missing | reflexivity].
Qed.

Lemma process_values b nm row :
  process_pptx_bytes b nm = Ok row -> raw_values_ok row = true.
Proof. intros (prs & _ & ->)%process_inv. apply row_of_deck_values. Qed.

Lemma batch_rows_values ups zip :
  Forall (fun row => raw_values_ok row = true) (rows (process_files ups zip)).
Proof.
  rewrite process_files_rows. apply Forall_forall.
  intros row (d & _ & Hd)%list_elem_of_omap. unfold row_of in Hd.
  destruct (process_pptx_bytes (snd d) (fst d)) as [row'|] eqn:E; [|discriminate].
  injection Hd as <-. now apply process_values in E.
Qed.

(** C9, as the code has it.  Every value of a row of a processed document
    is absent or a float that is neither NaN nor negative: a non-negative
    finite number, or plus infinity.  In every row of the final table this
    holds of the seven values and of the two best-of values, which are
    there; the rate is absent, such a float, or NaN. *)
Theorem C9_numeric_fields :
  (forall b nm row,
     process_pptx_bytes b nm = Ok row -> raw_values_ok row = true)
  /\ (forall ups zip pg df,
        main ups zip = Ok pg -> table pg = Some df ->
        Forall (fun r => row_values_ok r = true) df).
Proof.
  split; [exact process_values|].
  intros ups zip pg df. unfold main.
  pose proof (batch_rows_values ups zip) as Hrows.
  destruct (rows (process_files ups zip)) as [|row0 rest];
    [intros [= <-]; discriminate|].
  rewrite derive_map. simpl. intros [= <-]. simpl. intros [= <-].
  change (Forall (fun r => row_values_ok r = true)
            (List.map reconcile_row (DataFrame (row0 :: rest)))).
  unfold DataFrame. rewrite List.map_map. apply Forall_forall.
  intros r (row & -> & Hrow)%list_elem_of_fmap.
  rewrite Forall_forall in Hrows. specialize (Hrows row Hrow).
  unfold raw_values_ok in Hrows.
  repeat (apply andb_true_iff in Hrows as [Hrows ?]).
  now apply reconcile_row_values.
Qed.

(** *** Decks of ASCII text *)

Lemma PyFloat_ascii s :
  Forall (fun c => (c < 0x80)%N) s ->
  PyFloat_FromString s = @PyFloat_FromString ascii_unicode_data s.
Proof.
  intros Hs. unfold PyFloat_FromString.
  rewrite transform_ascii by exact Hs.
  now rewrite (@transform_ascii ascii_unicode_data) by exact Hs.
Qed.

Lemma ascii_value g :
  Forall (fun c => @kpi_char ascii_unicode_data c = true) g ->
  Forall (fun c => (c < 0x80)%N) g.
Proof.
  intros Hg. eapply Forall_impl; [exact Hg|]. intros c Hc.
  apply (@kpi_char_cases ascii_unicode_data) in Hc as [Hd | [ -> | [ -> | -> ]]];
    try reflexivity.
  unfold Py_UNICODE_ISDECIMAL in Hd. simpl in Hd.
  destruct (is_ascii_digit c) eqn:Ed; [|discriminate].
  apply digit_range in Ed. lia.
Qed.

Lemma parse_percent_ascii v :
  (forall g, v = Some g -> Forall (fun c => (c < 0x80)%N) g) ->
  parse_percent v = @parse_percent ascii_unicode_data v.
Proof.
  intros Hv. unfold parse_percent. destruct (negb (truthy_opt v)); [reflexivity|].
  rewrite PyFloat_ascii; [reflexivity|].
  destruct v as [g|]; simpl default; [|constructor].
  specialize (Hv g eq_refl). rewrite Forall_forall in Hv.
  apply Forall_forall. intros c Hc. apply Hv, list_elem_of_In.
  apply list_elem_of_In, strip_subset, replace_del_In in Hc. tauto.
Qed.

Lemma parse_currency_ascii v :
  (forall g, v = Some g -> Forall (fun c => (c < 0x80)%N) g) ->
  parse_currency v = @parse_currency ascii_unicode_data v.
Proof.
  intros Hv. unfold parse_currency. destruct (negb (truthy_opt v)); [reflexivity|].
  rewrite PyFloat_ascii; [reflexivity|].
  destruct v as [g|]; simpl default; [|constructor].
  specialize (Hv g eq_refl). rewrite Forall_forall in Hv.
  apply Forall_forall. intros c Hc. apply Hv, list_elem_of_In.
  apply list_elem_of_In, replace_del_In in Hc as [Hc _].
  apply replace_del_In in Hc. tauto.
Qed.

(** The row of a deck of ASCII text does not depend on the Unicode
    tables. *)
Lemma row_of_deck_ascii prs nm :
  Forall (fun c => (c < 0x80)%N) (full_text_of prs) ->
  row_of_deck prs nm = @row_of_deck ascii_unicode_data prs nm.
Proof.
  intros Ht. unfold row_of_deck. cbv zeta.
  rewrite (extract_kpis_ascii _ Ht).
  rewrite !parse_percent_ascii, !parse_currency_ascii;
    try (intros g Hg; apply ascii_value;
         exact (@kpis_chars ascii_unicode_data _ _ _ Hg)).
  reflexivity.
Qed.

End TableValues.

(** C1 as written fails.  Two uploads with one name give two rows with
    that name.  After an upload that failed, the archive entry of the
    same name, the later of the two documents, gives the row.  And of two
    archive entries with one name the later one gives the row: the first
    listing of the name reads the archive's last entry of that name, and
    the deck of the first entry is never read. *)
Lemma C1_counterexample :
  (forall U : UnicodeData,
     List.map PPT_File
       (rows (@process_files U [ {| name := a_pptx; read := Pptx empty_deck |};
                                 {| name := a_pptx; read := Pptx empty_deck |} ] None))
     = [a_pptx; a_pptx])
  /\ ~ NoDup [a_pptx; a_pptx]
  /\ (forall U : UnicodeData,
        rows (@process_files U [ {| name := a_pptx; read := Garbage |} ]
                (Some (Zip [(a_pptx, Pptx empty_deck)])))
        = [blank_row a_pptx])
  /\ (forall (U : UnicodeData) (first later : Presentation),
        rows (@process_files U []
                (Some (Zip [ (a_pptx, Pptx first); (b_pptx, Pptx first);
                             (a_pptx, Pptx later) ])))
        = [@row_of_deck U later a_pptx; @row_of_deck U first b_pptx])
  /\ (forall U : UnicodeData,
        @row_of_deck U deck_two a_pptx <> @row_of_deck U deck_one a_pptx).
Proof.
  split; [intros U; vm_compute; reflexivity|].
  split; [intros [Hin _]%NoDup_cons; apply Hin, list_elem_of_here|].
  split; [intros U; vm_compute; reflexivity|].
  split.
  - intros U first later. unfold process_files. cbn [namelist List.map fst fold_left].
    rewrite (zip_step_new _ init a_pptx later);
      [|reflexivity | apply not_elem_of_empty | reflexivity].
    rewrite (zip_step_new _ _ b_pptx first);
      [|reflexivity | apply (bool_decide_unpack _); vm_compute; exact I | reflexivity].
    rewrite zip_step_seen
      by (apply (bool_decide_unpack _); vm_compute; exact I).
    reflexivity.
  - intros U Heq.
    assert (Hascii : forall t, forallb (fun c => (c <? 0x80)%N) t = true ->
              Forall (fun c => (c < 0x80)%N) t).
    { intros t Ht. rewrite forallb_forall in Ht. apply Forall_forall.
      intros c Hc. apply N.ltb_lt, Ht. now apply list_elem_of_In. }
    rewrite (row_of_deck_ascii deck_two), (row_of_deck_ascii deck_one) in Heq
      by (apply Hascii; vm_compute; reflexivity).
    apply (f_equal Achieved) in Heq. vm_compute in Heq. discriminate.
Qed.


(** C9 as written fails: a deck that says "Achieved: 1" followed by 309
    zeros gives a row, and a table, whose Achieved value is plus infinity,
    whatever the Unicode tables. *)
Lemma C9_counterexample :
  (forall U : UnicodeData,
     @process_pptx_bytes U (Pptx (deck_of_text huge_achieved)) a_pptx = Ok huge_row)
  /\ (forall U : UnicodeData,
        @main U [ {| name := a_pptx; read := Pptx (deck_of_text huge_achieved) |} ] None
        = Ok {| messages := []; table := Some huge_table |})
  /\ Achieved huge_row = Some (S754_infinity false)
  /\ is_finite (S754_infinity false) = false.
Proof.
  assert (Hascii : Forall (fun c => (c < 0x80)%N)
                     (full_text_of (deck_of_text huge_achieved))).
  { apply Forall_forall. intros c Hc. apply list_elem_of_In in Hc.
    apply N.ltb_lt. revert c Hc. apply forallb_forall. vm_compute. reflexivity. }
  assert (Hrow : forall U : UnicodeData,
            @process_pptx_bytes U (Pptx (deck_of_text huge_achieved)) a_pptx
            = Ok huge_row).
  { intros U. rewrite process_loaded, (row_of_deck_ascii _ _ Hascii).
    vm_compute. reflexivity. }
  split; [exact Hrow|]. split; [|split; reflexivity].
  intros U. unfold main, process_files. simpl fold_left.
  unfold upload_step. simpl read. simpl name. rewrite Hrow. reflexivity.
Qed.

(** The table of the sample deck has values of the kind C9 allows. *)
Lemma C9_numeric_fields_witness :
  Forall (fun r => row_values_ok r = true) sample_table.
Proof.
  apply (proj2 (@C9_numeric_fields ascii_unicode_data)
           [ {| name := a_pptx; read := Pptx (deck_of_text sample_text) |} ] None
           {| messages := []; table := Some sample_table |}).
  - vm_compute. reflexivity.
  - reflexivity.
Defined.

(** ** The statements at concrete inputs *)

(** C1 at an archive that repeats the name of an upload. *)
Lemma C1_archive_deduplication_witness :
  NoDup (List.map PPT_File
           (rows (@process_files ascii_unicode_data three_uploads
                    (Some (Zip [ (a_pptx, Pptx empty_deck);
                                 (of_ascii "d.pptx", Pptx empty_deck) ]))))).
Proof.
  apply (proj1 (proj2 (proj2 (@C1_archive_deduplication ascii_unicode_data)))).
  apply (bool_decide_unpack _). vm_compute. exact I.
Defined.




(** C10 at the name "a.pptx". *)
Lemma C10_failed_name_not_reserved_witness :
  rows (@process_files ascii_unicode_data
          [ {| name := a_pptx; read := Garbage |} ]
          (Some (Zip [(a_pptx, Pptx empty_deck)])))
  = [blank_row a_pptx].
Proof.
  refine (proj2 (proj2 (@C10_failed_name_not_reserved ascii_unicode_data))
            a_pptx empty_deck _).
  reflexivity.
Defined.

(* ===================================================================== *)
(** * Part III: further properties of the code                           *)
(* ===================================================================== *)

(** ** The text of a deck *)

Section DeckText.

Lemma shape_texts (sls : list Slide) (acc : list str) :
  fold_left (fun texts slide =>
     fold_left (fun texts shape =>
        let txt := extract_runs_text shape in
        if truthy txt then texts ++ [txt] else texts) (shapes slide) texts) sls acc
  = acc ++ List.filter truthy (List.map extract_runs_text (flat_map shapes sls)).
Proof.
  revert acc. induction sls as [|sl sls IH]; intros acc; simpl.
  - now rewrite app_nil_r.
  - rewrite IH. rewrite (fold_append_filter extract_runs_text).
    rewrite List.map_app, List.filter_app, app_assoc. reflexivity.
Qed.

Lemma extract_runs_text_eq (shape : Shape) :
  extract_runs_text shape =
    if bool_decide (has_text_frame shape = Some true)
    then join [SPACE] (List.filter truthy (List.map run_fragment (all_runs shape)))
    else [].
Proof.
  unfold extract_runs_text, all_runs. case_bool_decide; [|reflexivity].
  rewrite parts_of_paragraphs. simpl app.
  apply strip_join_stripped, kept_fragments_stripped.
Qed.

Lemma join_nil_iff sep (ps : list str) :
  Forall (fun p => p <> []) ps -> join sep ps = [] <-> ps = [].
Proof.
  intros Hps. split; [|now intros ->].
  destruct Hps as [|p ps Hp _]; [reflexivity|].
  intros E. exfalso. revert E. now apply join_nonempty.
Qed.

Lemma filter_truthy_nil (l : list str) :
  List.filter truthy l = [] <-> Forall (fun p => p = []) l.
Proof.
  induction l as [|p l IH]; simpl; [split; [constructor | reflexivity]|].
  destruct p as [|c p]; simpl.
  - rewrite IH. split; [now constructor | now inversion 1].
  - split; [discriminate | inversion 1; discriminate].
Qed.

Lemma filter_truthy_nonempty (l : list str) :
  Forall (fun p => p <> []) (List.filter truthy l).
Proof.
  apply Forall_forall. intros p Hp. apply list_elem_of_In, List.filter_In in Hp.
  now apply truthy_nonempty.
Qed.

(** X1.  The text of a deck is the texts of its shapes, in slide order
    and shape order, the empty ones dropped, joined by one space; it has no
    whitespace at either end.  A shape gives an empty text exactly when it
    has no text frame or every run of it is blank. *)
Theorem X1_deck_text :
  (forall prs,
     full_text_of prs
     = join [SPACE] (List.filter truthy (List.map extract_runs_text (all_shapes prs))))
  /\ (forall prs, strip (full_text_of prs) = full_text_of prs)
  /\ (forall shape,
        extract_runs_text shape = [] <->
        has_text_frame shape <> Some true
        \/ Forall (fun r => run_fragment r = []) (all_runs shape)).
Proof.
  assert (Heq : forall prs,
            full_text_of prs
            = join [SPACE]
                (List.filter truthy (List.map extract_runs_text (all_shapes prs)))).
  { intros prs. unfold full_text_of, all_shapes. now rewrite shape_texts. }
  split; [exact Heq|]. split.
  - intros prs. rewrite Heq. apply strip_join_stripped.
    apply Forall_forall. intros p Hp. apply list_elem_of_In, List.filter_In in Hp.
    destruct Hp as [Hin Ht]. split; [now apply truthy_nonempty|].
    apply List.in_map_iff in Hin as [sh [<- _]]. unfold extract_runs_text.
    split; [apply strip_starts_clean | apply strip_ends_clean].
  - intros shape. rewrite extract_runs_text_eq. case_bool_decide as Hf.
    + rewrite join_nil_iff by apply filter_truthy_nonempty.
      rewrite filter_truthy_nil, Forall_map. split; [now right|].
      intros [Hn|Hall]; [contradiction | exact Hall].
    + split; [now left | reflexivity].
Qed.

End DeckText.

(** ** The keys and the values of the result map *)

Section ResultMap.
Context `{UnicodeData}.

Lemma kpis_data_lookup text k :
  k ∈ List.map fst PATTERNS ->
  search_all text PATTERNS ∅ !! k = search (pattern_of k) text.
Proof.
  intros Hk.
  rewrite (search_all_lookup text PATTERNS ∅ k (pattern_of k)
             PATTERNS_keys_NoDup (PATTERNS_pattern_of k Hk)).
  rewrite lookup_empty. now destruct (search (pattern_of k) text).
Qed.

Lemma pattern_key (k : string) :
  k ∈ List.map fst PATTERNS <-> k ∈ canonical_keys \/ k = "Quality Score (alt)".
Proof.
  change (List.map fst PATTERNS) with (canonical_keys ++ ["Quality Score (alt)"]).
  rewrite elem_of_app, list_elem_of_singleton. reflexivity.
Qed.

(** A key other than the two quality keys holds what its pattern captured. *)
Lemma kpis_lookup_ordinary text k :
  k ∈ ordinary_keys ->
  extract_kpis_from_text text !! k = search (pattern_of k) text.
Proof.
  intros Hk.
  assert (Hne1 : k <> "Quality Score (alt)").
  { intros ->. revert Hk. apply (bool_decide_eq_false_1 _). vm_compute. reflexivity. }
  assert (Hne2 : k <> "Quality Score").
  { intros ->. revert Hk. apply (bool_decide_eq_false_1 _). vm_compute. reflexivity. }
  assert (Hin : k ∈ List.map fst PATTERNS).
  { apply pattern_key. left. unfold canonical_keys. apply elem_of_app. now left. }
  unfold extract_kpis_from_text.
  change (fold_left _ PATTERNS ∅) with (search_all text PATTERNS ∅).
  rewrite lookup_delete_ne by congruence.
  destruct (search_all text PATTERNS ∅ !! "Quality Score");
    [now apply kpis_data_lookup|].
  destruct (search_all text PATTERNS ∅ !! "Quality Score (alt)");
    [|now apply kpis_data_lookup].
  rewrite lookup_insert_ne by congruence. now apply kpis_data_lookup.
Qed.

(** "Quality Score" holds the primary capture, else the fallback's. *)
Lemma kpis_lookup_quality text :
  extract_kpis_from_text text !! "Quality Score" =
    match search (pattern_of "Quality Score") text with
    | Some primary => Some primary
    | None => search (pattern_of "Quality Score (alt)") text
    end.
Proof.
  assert (Kqs : "Quality Score" ∈ List.map fst PATTERNS)
    by (apply (bool_decide_unpack _); vm_compute; exact I).
  assert (Kalt : "Quality Score (alt)" ∈ List.map fst PATTERNS)
    by (apply (bool_decide_unpack _); vm_compute; exact I).
  unfold extract_kpis_from_text.
  change (fold_left _ PATTERNS ∅) with (search_all text PATTERNS ∅).
  rewrite lookup_delete_ne by discriminate.
  rewrite (kpis_data_lookup text _ Kqs), (kpis_data_lookup text _ Kalt).
  destruct (search (pattern_of "Quality Score") text) as [g|] eqn:E1.
  - rewrite (kpis_data_lookup text _ Kqs). exact E1.
  - destruct (search (pattern_of "Quality Score (alt)") text) as [g|] eqn:E2.
    + apply lookup_insert_eq.
    + rewrite (kpis_data_lookup text _ Kqs). exact E1.
Qed.

Lemma kpis_keys text k :
  is_Some (extract_kpis_from_text text !! k) -> k ∈ canonical_keys.
Proof.
  unfold extract_kpis_from_text.
  change (fold_left _ PATTERNS ∅) with (search_all text PATTERNS ∅).
  set (data := search_all text PATTERNS ∅).
  assert (Hdata : forall k', is_Some (data !! k') -> k' ∈ List.map fst PATTERNS).
  { intros k' [g [Hd|(pat & Hin & _)]%search_all_Some].
    - rewrite lookup_empty in Hd. discriminate.
    - apply list_elem_of_fmap. now exists (k', pat). }
  destruct (decide (k = "Quality Score (alt)")) as [->|Hne].
  { rewrite lookup_delete_eq. intros [? [=]]. }
  rewrite lookup_delete_ne by congruence. intros Hk.
  assert (Hin : k ∈ List.map fst PATTERNS \/ k = "Quality Score").
  { destruct (data !! "Quality Score"); [left; now apply Hdata|].
    destruct (data !! "Quality Score (alt)"); [|left; now apply Hdata].
    destruct (decide (k = "Quality Score")) as [->|Hq]; [now right|].
    rewrite lookup_insert_ne in Hk by congruence. left. now apply Hdata. }
  destruct Hin as [[Hc| ->]%pattern_key | ->]; [exact Hc | contradiction|].
  unfold canonical_keys. apply elem_of_app. right. apply list_elem_of_here.
Qed.

(** X2.  For every text, each of the six ordinary keys holds what the
    search of its own pattern captured, whatever the other patterns find,
    and the map has no key besides these six and "Quality Score". *)
Theorem X2_result_keys :
  forall text,
    Forall (fun k => extract_kpis_from_text text !! k = search (pattern_of k) text)
      ordinary_keys
    /\ dom (extract_kpis_from_text text) ⊆ list_to_set canonical_keys.
Proof.
  intros text. split.
  - apply Forall_forall. intros k Hk. now apply kpis_lookup_ordinary.
  - intros k Hk%elem_of_dom. apply elem_of_list_to_set. now apply kpis_keys in Hk.
Qed.

(** What a match captures has at least as many characters as the group
    has one-character items. *)
Lemma match_here_length its :
  forall s rec acc g,
    match_here its s rec acc = Some g ->
    length acc + min_recorded its rec <= length g.
Proof.
  induction its as [|it its IH]; intros s rec acc g.
  - simpl. intros [= <-]. rewrite length_rev. lia.
  - destruct it as [x|x| |]; simpl.
    + destruct s as [|c s']; [discriminate|].
      destruct (match_single x c); [|discriminate].
      intros Hm%IH. destruct rec; simpl in Hm |- *; lia.
    + revert acc. induction s as [|c s' IHs]; intros acc.
      * apply IH.
      * destruct (match_single x c); [|apply IH].
        match goal with
        | |- match ?m with _ => _ end = _ -> _ => destruct m as [g'|] eqn:Eg
        end; [|apply IH].
        intros [= <-]. apply IHs in Eg. destruct rec; simpl in Eg; lia.
    + apply IH.
    + apply IH.
Qed.

Lemma search_nonempty its s g :
  1 <= min_recorded its false -> search its s = Some g -> g <> [].
Proof.
  intros Hmin. induction s as [|c s IH]; simpl.
  - destruct (match_here its [] false []) eqn:E; [|discriminate].
    intros [= <-] ->. apply match_here_length in E. simpl in E. lia.
  - destruct (match_here its (c :: s) false []) eqn:E; [|exact IH].
    intros [= <-] ->. apply match_here_length in E. simpl in E. lia.
Qed.

Lemma PATTERNS_capture_one :
  forallb (fun kp => Nat.leb 1 (min_recorded (snd kp) false)) PATTERNS = true.
Proof. vm_compute. reflexivity. Qed.

(** X3.  Every value of the result map is non-empty and made of decimal
    digits, points, commas and signs [%] only. *)
Theorem X3_result_values :
  forall text k g,
    extract_kpis_from_text text !! k = Some g ->
    g <> [] /\ Forall (fun c => kpi_char c = true) g.
Proof.
  intros text k g Hk. split; [|now apply (kpis_chars text k)].
  assert (Hpat : forall k' pat, (k', pat) ∈ PATTERNS ->
            search pat text = Some g -> g <> []).
  { intros k' pat Hin. apply search_nonempty.
    pose proof PATTERNS_capture_one as Hall. rewrite forallb_forall in Hall.
    apply list_elem_of_In in Hin. specialize (Hall _ Hin). simpl in Hall.
    now apply Nat.leb_le. }
  assert (Hkey : k ∈ canonical_keys) by (apply (kpis_keys text); eauto).
  unfold canonical_keys in Hkey. apply elem_of_app in Hkey as [Ho|Hq].
  - rewrite (kpis_lookup_ordinary text k Ho) in Hk.
    apply (Hpat k (pattern_of k)); [|exact Hk].
    apply PATTERNS_pattern_of, pattern_key. left. apply elem_of_app. now left.
  - apply list_elem_of_singleton in Hq as ->. rewrite kpis_lookup_quality in Hk.
    destruct (search (pattern_of "Quality Score") text) as [q|] eqn:Eq.
    + injection Hk as ->.
      apply (Hpat "Quality Score" (pattern_of "Quality Score")); [|exact Eq].
      apply PATTERNS_pattern_of. apply (bool_decide_unpack _). vm_compute. exact I.
    + apply (Hpat "Quality Score (alt)" (pattern_of "Quality Score (alt)"));
        [|exact Hk].
      apply PATTERNS_pattern_of. apply (bool_decide_unpack _). vm_compute. exact I.
Qed.

End ResultMap.

(** X3 at the text "Quality Score: 92.5%". *)
Lemma X3_result_values_witness :
  of_ascii "92.5%" <> []
  /\ Forall (fun c => @kpi_char ascii_unicode_data c = true) (of_ascii "92.5%").
Proof.
  apply (@X3_result_values ascii_unicode_data
           (of_ascii "Quality Score: 92.5%") "Quality Score").
  vm_compute. reflexivity.
Defined.

(** ** More on the value normalizer *)

Section NormalForms.
Context `{UnicodeData}.

Lemma PyFloat_empty : PyFloat_FromString [] = Raise ValueError.
Proof. reflexivity. Qed.

Lemma replace_del_clean x s : Forall (fun c => c <> x) (replace_del x s).
Proof.
  apply Forall_forall. intros c Hc. apply list_elem_of_In, replace_del_In in Hc. tauto.
Qed.

Lemma replace_del_idem x s : replace_del x (replace_del x s) = replace_del x s.
Proof. apply replace_del_keep, replace_del_clean. Qed.

Lemma currency_clean_idem s :
  replace_del SPACE (replace_del COMMA (replace_del SPACE (replace_del COMMA s)))
  = replace_del SPACE (replace_del COMMA s).
Proof.
  rewrite (replace_del_keep COMMA (replace_del SPACE (replace_del COMMA s))).
  - apply replace_del_idem.
  - apply Forall_forall. intros c Hc. apply list_elem_of_In in Hc.
    apply replace_del_In in Hc as [Hc _]. apply replace_del_In in Hc. tauto.
Qed.

Lemma strip_idem s : strip (strip s) = strip s.
Proof. apply strip_clean; [apply strip_starts_clean | apply strip_ends_clean]. Qed.

Lemma percent_clean_idem s :
  strip (replace_del PERCENT (strip (replace_del PERCENT s)))
  = strip (replace_del PERCENT s).
Proof.
  rewrite (replace_del_keep PERCENT (strip (replace_del PERCENT s))).
  - apply strip_idem.
  - apply Forall_forall. intros c Hc. apply list_elem_of_In, strip_subset in Hc.
    apply replace_del_In in Hc. tauto.
Qed.

(** The guard on the raw string and the guard on the cleaned string
    agree: an empty cleaned string is no number. *)
Lemma guarded_float (s t : str) :
  (s = [] -> t = []) ->
  (if negb (truthy s) then Ok None
   else try_except (x ← PyFloat_FromString t; Ok (Some x)) (fun _ => Ok None))
  = (if negb (truthy t) then Ok None
     else try_except (x ← PyFloat_FromString t; Ok (Some x)) (fun _ => Ok None)).
Proof.
  intros Hst. destruct s as [|c s].
  - now rewrite (Hst eq_refl).
  - destruct t as [|c' t]; reflexivity.
Qed.

(** X4.  Commas and spaces do not count, wherever they stand: a string
    and the same string without them parse alike. *)
Theorem X4_currency_separators :
  forall s,
    parse_currency (Some s)
    = parse_currency (Some (replace_del SPACE (replace_del COMMA s))).
Proof.
  intros s. unfold parse_currency. simpl truthy_opt. simpl default.
  rewrite currency_clean_idem. apply guarded_float. now intros ->.
Qed.

(** X5.  Signs [%] do not count, wherever they stand, nor whitespace
    around the rest: a string and what is left of it parse alike; and a
    string of nothing but whitespace and signs [%] gives [None]. *)
Theorem X5_percent_signs :
  (forall s,
     parse_percent (Some s) = parse_percent (Some (strip (replace_del PERCENT s))))
  /\ (forall s,
        Forall (fun c => Py_UNICODE_ISSPACE c = true \/ c = PERCENT) s ->
        parse_percent (Some s) = Ok None).
Proof.
  assert (Hnorm : forall s,
            parse_percent (Some s)
            = parse_percent (Some (strip (replace_del PERCENT s)))).
  { intros s. unfold parse_percent. simpl truthy_opt. simpl default.
    rewrite percent_clean_idem. apply guarded_float. now intros ->. }
  split; [exact Hnorm|].
  intros s Hs. rewrite Hnorm.
  replace (strip (replace_del PERCENT s)) with (@nil N); [reflexivity|].
  symmetry. unfold strip, lstrip.
  assert (Hws : Forall (fun c => Py_UNICODE_ISSPACE c = true) (replace_del PERCENT s)).
  { apply Forall_forall. intros c Hc. apply list_elem_of_In, replace_del_In in Hc.
    destruct Hc as [Hc Hne]. rewrite Forall_forall in Hs.
    destruct (Hs c) as [Hsp| ->]; [now apply list_elem_of_In | exact Hsp | contradiction]. }
  destruct (takewhile_all Py_UNICODE_ISSPACE _ Hws) as [_ ->]. reflexivity.
Qed.

(** *** Amounts as the patterns capture them *)







End NormalForms.


(** ** More on the patterns *)

Section LetterCase.
Context `{UnicodeData}.

Lemma lower_map s : lower s = List.map lower_char s.
Proof. reflexivity. Qed.

Lemma lower_char_letter c :
  lower_char c = c
  \/ (is_ascii_letter c = true /\ is_ascii_letter (lower_char c) = true).
Proof.
  unfold lower_char, is_ascii_letter.
  destruct (N.leb_spec 0x41 c), (N.leb_spec c 0x5A); cbn [andb orb]; auto.
  right. split; [reflexivity|].
  destruct (N.leb_spec 0x41 (c + 0x20)), (N.leb_spec (c + 0x20) 0x5A),
    (N.leb_spec 0x61 (c + 0x20)), (N.leb_spec (c + 0x20) 0x7A);
    cbn [andb orb]; auto; lia.
Qed.

Lemma letter_range c :
  is_ascii_letter c = true -> (0x41 <= c <= 0x5A \/ 0x61 <= c <= 0x7A)%N.
Proof.
  unfold is_ascii_letter.
  destruct (N.leb_spec 0x41 c), (N.leb_spec c 0x5A), (N.leb_spec 0x61 c),
    (N.leb_spec c 0x7A); cbn [andb orb]; intros; try discriminate; lia.
Qed.

Lemma letter_not_space c :
  is_ascii_letter c = true -> Py_UNICODE_ISSPACE c = false.
Proof.
  intros Hc%letter_range. unfold Py_UNICODE_ISSPACE.
  char_cases; reflexivity.
Qed.

Lemma letter_not_decimal c :
  is_ascii_letter c = true -> Py_UNICODE_ISDECIMAL c = false.
Proof.
  intros Hc%letter_range. unfold Py_UNICODE_ISDECIMAL.
  rewrite todecimal_ascii by lia. unfold is_ascii_digit.
  char_cases; reflexivity.
Qed.

Lemma sre_lower_lower c : sre_lower (lower_char c) = sre_lower c.
Proof.
  unfold sre_lower, lower_char.
  destruct ((0x41 <=? c)%N && (c <=? 0x5A)%N) eqn:E; cbv beta iota;
    [|rewrite E; reflexivity].
  apply andb_true_iff in E as [E1%N.leb_le E2%N.leb_le].
  char_cases; cbn [andb]; try reflexivity; lia.
Qed.

Lemma sre_lower_letter c :
  is_ascii_letter c = true -> is_ascii_letter (sre_lower c) = true.
Proof.
  intros Hc%letter_range. unfold sre_lower, is_ascii_letter.
  destruct (N.leb_spec 0x41 c), (N.leb_spec c 0x5A); cbn [andb];
    char_cases; cbn [andb orb]; try reflexivity; lia.
Qed.

(** No ASCII letter is in a class without cased members. *)
Lemma in_members_letter ms c :
  forallb uncased_member ms = true -> is_ascii_letter c = true ->
  in_members ms c = false.
Proof.
  intros Hms Hc. unfold in_members. induction ms as [|m ms IH]; [reflexivity|].
  simpl in Hms. apply andb_true_iff in Hms as [Hm Hms]. simpl.
  rewrite (IH Hms), orb_false_r. destruct m as [x| |]; simpl in Hm.
  - destruct (N.eqb_spec c x) as [->|]; [|reflexivity].
    rewrite Hc in Hm. discriminate.
  - now apply letter_not_space.
  - now apply letter_not_decimal.
Qed.

Lemma in_members_lower ms c :
  forallb uncased_member ms = true ->
  in_members ms (lower_char c) = in_members ms c.
Proof.
  intros Hms. destruct (lower_char_letter c) as [->|[Hc Hl]]; [reflexivity|].
  now rewrite !in_members_letter.
Qed.

Lemma match_single_lower x c :
  case_blind x = true -> match_single x (lower_char c) = match_single x c.
Proof.
  destruct x as [p|ms|ms|ms]; simpl; intros Hx.
  - now rewrite sre_lower_lower.
  - now apply in_members_lower.
  - now rewrite sre_lower_lower.
  - now rewrite in_members_lower.
Qed.

Lemma uncased_case_blind x : uncased x = true -> case_blind x = true.
Proof. destruct x; simpl; congruence. Qed.

(** What an item without cased members matches is left alone by [lower]. *)
Lemma uncased_match x c :
  uncased x = true -> match_single x c = true -> lower_char c = c.
Proof.
  intros Hx Hm. destruct (lower_char_letter c) as [Hc|[Hc _]]; [exact Hc|].
  exfalso. destruct x as [p|ms|ms|ms]; simpl in Hx, Hm; try discriminate.
  - apply sre_lower_letter in Hc. apply negb_true_iff in Hx.
    assert (Hfix : ignorecase_fixes (sre_lower p) = []).
    { apply letter_range in Hc. unfold ignorecase_fixes, is_ascii_letter in *.
      destruct (N.eqb_spec (sre_lower p) 0x69) as [E|_];
        [rewrite E in Hx; discriminate|].
      destruct (N.eqb_spec (sre_lower p) 0x73) as [E|_];
        [rewrite E in Hx; discriminate|]. reflexivity. }
    rewrite Hfix in Hm. simpl in Hm. rewrite orb_false_r in Hm.
    apply N.eqb_eq in Hm. rewrite Hm in Hc. congruence.
  - rewrite in_members_letter in Hm by assumption. discriminate.
Qed.

Lemma match_here_lower its :
  forall s rec acc,
    case_blind_items rec its = true ->
    match_here its (List.map lower_char s) rec acc = match_here its s rec acc.
Proof.
  induction its as [|it its IH]; intros s rec acc Hits; [reflexivity|].
  destruct it as [x|x| |]; simpl in Hits |- *.
  - apply andb_true_iff in Hits as [Hx Hits].
    destruct s as [|c s']; [reflexivity|]. simpl.
    assert (Hb : case_blind x = true)
      by (destruct rec; [now apply uncased_case_blind | exact Hx]).
    rewrite (match_single_lower x c Hb).
    destruct (match_single x c) eqn:Em; [|reflexivity].
    destruct rec; [|now apply IH].
    rewrite (uncased_match x c Hx Em). now apply IH.
  - apply andb_true_iff in Hits as [Hx Hits].
    assert (Hb : case_blind x = true)
      by (destruct rec; [now apply uncased_case_blind | exact Hx]).
    revert acc. induction s as [|c s' IHs]; intros acc.
    + apply (IH [] rec acc Hits).
    + simpl. rewrite (match_single_lower x c Hb).
      destruct (match_single x c) eqn:Em.
      * assert (Hacc : (if rec then lower_char c :: acc else acc)
                       = (if rec then c :: acc else acc)).
        { destruct rec; [|reflexivity]. now rewrite (uncased_match x c Hx Em). }
        rewrite Hacc, IHs.
        now rewrite <- (IH (c :: s') rec acc Hits).
      * now rewrite <- (IH (c :: s') rec acc Hits).
  - now apply IH.
  - now apply IH.
Qed.

Lemma search_lower its s :
  case_blind_items false its = true ->
  search its (lower s) = search its s.
Proof.
  intros Hits. rewrite lower_map. induction s as [|c s IH]; [reflexivity|].
  simpl. rewrite IH.
  change (lower_char c :: List.map lower_char s) with (List.map lower_char (c :: s)).
  now rewrite (match_here_lower its (c :: s) false [] Hits).
Qed.

Lemma PATTERNS_case_blind :
  forallb (fun kp => case_blind_items false (snd kp)) PATTERNS = true.
Proof. vm_compute. reflexivity. Qed.

Lemma search_all_lower text patterns data :
  forallb (fun kp => case_blind_items false (snd kp)) patterns = true ->
  search_all (lower text) patterns data = search_all text patterns data.
Proof.
  unfold search_all. revert data.
  induction patterns as [|kp l IH]; intros data Hl; [reflexivity|].
  simpl in Hl. apply andb_true_iff in Hl as [Hkp Hl]. simpl.
  rewrite search_lower by exact Hkp. now apply IH.
Qed.

Lemma extract_kpis_lower text :
  extract_kpis_from_text (lower text) = extract_kpis_from_text text.
Proof.
  pose proof (search_all_lower text PATTERNS ∅ PATTERNS_case_blind) as E.
  unfold search_all in E. unfold extract_kpis_from_text. now rewrite E.
Qed.

(** X7.  The letter case of the text does not count: two texts that
    differ only in the case of ASCII letters give the same result map,
    keys and captured values. *)
Theorem X7_letter_case :
  forall text1 text2,
    lower text1 = lower text2 ->
    extract_kpis_from_text text1 = extract_kpis_from_text text2.
Proof.
  intros text1 text2 Hl.
  now rewrite <- (extract_kpis_lower text1), Hl, extract_kpis_lower.
Qed.

End LetterCase.

(** X7 at two spellings of one line. *)
Lemma X7_letter_case_witness :
  @extract_kpis_from_text ascii_unicode_data (of_ascii "REVENUE TARGET: rs. 1,200")
  = @extract_kpis_from_text ascii_unicode_data (of_ascii "Revenue Target: Rs. 1,200").
Proof.
  apply (@X7_letter_case ascii_unicode_data). vm_compute. reflexivity.
Defined.

(** *** A text inside a longer text *)

Section TextInside.
Context `{UnicodeData}.

(** A star that fails leaves no match for the rest of the items either. *)
Lemma star_fallback x r s rec acc :
  match_here (Star x :: r) s rec acc = None -> match_here r s rec acc = None.
Proof.
  destruct s as [|c s']; simpl; [auto|].
  destruct (match_single x c); [|auto].
  match goal with
  | |- match ?m with _ => _ end = _ -> _ => destruct m; [discriminate | auto]
  end.
Qed.

(** No match at the start of a text, none at the start of a part of it. *)
Lemma match_here_prefix its more :
  forall s rec acc,
    match_here its (s ++ more) rec acc = None -> match_here its s rec acc = None.
Proof.
  induction its as [|it its IH]; intros s rec acc; [discriminate|].
  destruct it as [x|x| |].
  - destruct s as [|c s']; [reflexivity|]. simpl.
    destruct (match_single x c); [apply IH | reflexivity].
  - revert acc. induction s as [|c s' IHs]; intros acc.
    + intros Hm%star_fallback. simpl. now apply (IH [] rec acc).
    + simpl. destruct (match_single x c); [|apply (IH (c :: s'))].
      match goal with
      | |- match ?m with _ => _ end = _ -> _ => destruct m eqn:Em; [discriminate|]
      end.
      intros Hr. apply IHs in Em. cbn [match_here] in Em. rewrite Em.
      now apply (IH (c :: s')).
  - simpl. apply IH.
  - simpl. apply IH.
Qed.

Lemma search_here its s :
  search its s = None -> match_here its s false [] = None.
Proof.
  destruct s; simpl; destruct (match_here its _ false []); congruence.
Qed.

Lemma search_prefix its more s :
  search its (s ++ more) = None -> search its s = None.
Proof.
  induction s as [|c s IH].
  - intros Hm%search_here. simpl.
    now rewrite (match_here_prefix its more [] false [] Hm).
  - simpl. destruct (match_here its (c :: s ++ more) false []) eqn:Em; [discriminate|].
    intros Hs. rewrite (match_here_prefix its more (c :: s) false [] Em).
    now apply IH.
Qed.

Lemma search_suffix its before s :
  search its (before ++ s) = None -> search its s = None.
Proof.
  induction before as [|c before IH]; [auto|].
  simpl. destruct (match_here its (c :: before ++ s) false []); [discriminate|].
  exact IH.
Qed.

Lemma search_inside its before s more :
  search its (before ++ s ++ more) = None -> search its s = None.
Proof. intros Hs%search_suffix. now apply search_prefix in Hs. Qed.

(** X8.  A key that a text gives is given by every text that contains
    it: what stands before or after a match cannot undo it. *)
Theorem X8_text_inside :
  forall before text more,
    dom (extract_kpis_from_text text)
    ⊆ dom (extract_kpis_from_text (before ++ text ++ more)).
Proof.
  intros before text more k [g Hk]%elem_of_dom. apply elem_of_dom.
  destruct (extract_kpis_from_text (before ++ text ++ more) !! k) as [g'|] eqn:E;
    [eauto|exfalso].
  assert (Hkey : k ∈ canonical_keys) by (apply (kpis_keys text); eauto).
  unfold canonical_keys in Hkey. apply elem_of_app in Hkey as [Ho|Hq].
  - rewrite (kpis_lookup_ordinary _ k Ho) in E.
    rewrite (kpis_lookup_ordinary _ k Ho) in Hk.
    apply search_inside in E. congruence.
  - apply list_elem_of_singleton in Hq as ->.
    rewrite kpis_lookup_quality in E. rewrite kpis_lookup_quality in Hk.
    destruct (search (pattern_of "Quality Score") (before ++ text ++ more)) eqn:E1;
      [discriminate|].
    apply search_inside in E1, E. rewrite E1, E in Hk. discriminate.
Qed.

End TextInside.

(** ** More on the batch *)

Section BatchInvariants.
Context `{UnicodeData}.

(** An invariant of both loop bodies holds after both loops. *)
Lemma fold_invariant {A} (P : state -> Prop) (step : state -> A -> state) (l : list A) :
  (forall st x, P st -> P (step st x)) ->
  forall st, P st -> P (fold_left step l st).
Proof.
  intros Hstep. induction l as [|x l IH]; intros st Hst; [exact Hst|].
  simpl. apply IH, Hstep, Hst.
Qed.

Lemma process_files_invariant (P : state -> Prop) :
  P init ->
  (forall st f, P st -> P (upload_step st f)) ->
  (forall entries st nm, P st -> P (zip_step entries st nm)) ->
  (forall st, P st ->
     P {| rows := rows st; seen := seen st; log := log st ++ [error_zip] |}) ->
  forall ups zip, P (process_files ups zip).
Proof.
  intros Hinit Hup Hzip Herr ups zip. unfold process_files.
  assert (Hst : P (fold_left upload_step ups init))
    by (apply fold_invariant; assumption).
  destruct zip as [[entries|]|]; [|now apply Herr | exact Hst].
  apply fold_invariant; [apply Hzip | exact Hst].
Qed.

Lemma seen_add st nm row :
  PPT_File row = nm ->
  seen st = list_to_set (List.map PPT_File (rows st)) ->
  {[nm]} ∪ seen st =@{gset str} list_to_set (List.map PPT_File (rows st ++ [row])).
Proof.
  intros Hnm Hst. rewrite List.map_app, list_to_set_app_L, <- Hst. simpl.
  rewrite Hnm, (right_id_L ∅ (∪)). apply (comm_L (∪)).
Qed.

(** X9.  At the end of the batch [seen] holds exactly the file names of
    the rows collected: every name added stands in a row, and every row's
    name was added. *)
Theorem X9_seen_names :
  forall ups zip,
    seen (process_files ups zip)
    = list_to_set (List.map PPT_File (rows (process_files ups zip))).
Proof.
  apply (process_files_invariant
           (fun st => seen st = list_to_set (List.map PPT_File (rows st)))).
  - reflexivity.
  - intros st f Hst. unfold upload_step.
    destruct (process_pptx_bytes (read f) (name f)) as [row|e] eqn:E; simpl;
      [|exact Hst].
    apply seen_add; [now apply process_names in E | exact Hst].
  - intros entries st nm Hst. unfold zip_step.
    destruct (is_pptx_name nm && negb (bool_decide (nm ∈ seen st))); [|exact Hst].
    destruct (process_pptx_bytes (zf_read entries nm) nm) as [row|e] eqn:E; simpl;
      [|exact Hst].
    apply seen_add; [now apply process_names in E | exact Hst].
  - intros st Hst. exact Hst.
Qed.

(** The traces of a batch: its rows and its messages. *)
Lemma upload_step_traces st f :
  length (rows (upload_step st f)) + length (log (upload_step st f))
  = S (length (rows st) + length (log st)).
Proof.
  unfold upload_step.
  destruct (process_pptx_bytes (read f) (name f)); simpl; rewrite length_app; simpl; lia.
Qed.

Lemma zip_step_traces entries st nm :
  length (rows st) + length (log st)
  <= length (rows (zip_step entries st nm)) + length (log (zip_step entries st nm))
  <= S (length (rows st) + length (log st)).
Proof.
  unfold zip_step.
  destruct (is_pptx_name nm && negb (bool_decide (nm ∈ seen st))); [|lia].
  destruct (process_pptx_bytes (zf_read entries nm) nm); simpl; rewrite length_app;
    simpl; lia.
Qed.

Lemma uploads_traces ups st :
  length (rows (fold_left upload_step ups st))
  + length (log (fold_left upload_step ups st))
  = length ups + (length (rows st) + length (log st)).
Proof.
  revert st. induction ups as [|f ups IH]; intros st; [reflexivity|].
  simpl. rewrite IH, upload_step_traces. lia.
Qed.

Lemma archive_traces entries names st :
  length (rows st) + length (log st)
  <= length (rows (fold_left (zip_step entries) names st))
     + length (log (fold_left (zip_step entries) names st))
  <= length names + (length (rows st) + length (log st)).
Proof.
  revert st. induction names as [|nm names IH]; intros st; [simpl; lia|].
  simpl. pose proof (IH (zip_step entries st nm)).
  pose proof (zip_step_traces entries st nm). lia.
Qed.

(** X10.  Every upload leaves exactly one trace, a row or a warning; an
    archive leaves at most one trace per entry, and a file that is no
    archive leaves one message. *)
Theorem X10_one_trace_each :
  forall ups zip,
    let st := process_files ups zip in
    let traces := length (rows st) + length (log st) in
    match zip with
    | None => traces = length ups
    | Some NotAZip => traces = length ups + 1
    | Some (Zip entries) => length ups <= traces <= length ups + length entries
    end.
Proof.
  intros ups zip. cbv zeta. unfold process_files.
  pose proof (uploads_traces ups init) as Hup. simpl in Hup.
  destruct zip as [[entries|]|]; simpl.
  - pose proof (archive_traces entries (namelist entries)
                  (fold_left upload_step ups init)) as Hz.
    assert (Hlen : length (namelist entries) = length entries)
      by apply length_map.
    lia.
  - rewrite length_app. simpl. lia.
  - lia.
Qed.

(** *** Archive entries that are no decks *)

Lemma fold_left_ext {A B} (f g : A -> B -> A) (l : list B) :
  (forall a b, f a b = g a b) -> forall a, fold_left f l a = fold_left g l a.
Proof.
  intros Hfg. induction l as [|b l IH]; intros a; [reflexivity|].
  simpl. rewrite Hfg. apply IH.
Qed.

Lemma zip_step_other entries st nm :
  is_pptx_name nm = false -> zip_step entries st nm = st.
Proof. intros Hnm. unfold zip_step. now rewrite Hnm. Qed.

Lemma archive_skips_others entries names st :
  fold_left (zip_step entries) names st
  = fold_left (zip_step entries) (List.filter is_pptx_name names) st.
Proof.
  revert st. induction names as [|nm names IH]; intros st; [reflexivity|].
  simpl. destruct (is_pptx_name nm) eqn:E; simpl; [apply IH|].
  rewrite (zip_step_other entries st nm E). apply IH.
Qed.

Lemma namelist_filter (p : str -> bool) entries :
  namelist (List.filter (fun e => p (fst e)) entries)
  = List.filter p (namelist entries).
Proof.
  unfold namelist. induction entries as [|e entries IH]; [reflexivity|].
  simpl. destruct (p (fst e)); simpl; now rewrite IH.
Qed.

(** Reading a deck's name does not look at the entries that are no decks. *)
Lemma zf_read_decks entries nm :
  is_pptx_name nm = true ->
  zf_read (List.filter (fun e => is_pptx_name (fst e)) entries) nm
  = zf_read entries nm.
Proof.
  intros Hnm. unfold zf_read. generalize Garbage as found.
  induction entries as [|e entries IH]; intros found; [reflexivity|].
  simpl. destruct (is_pptx_name (fst e)) eqn:E; simpl; [apply IH|].
  case_bool_decide as Heq; [congruence | apply IH].
Qed.

Lemma zip_step_decks entries st nm :
  zip_step (List.filter (fun e => is_pptx_name (fst e)) entries) st nm
  = zip_step entries st nm.
Proof.
  unfold zip_step. destruct (is_pptx_name nm) eqn:E; [|reflexivity].
  now rewrite zf_read_decks.
Qed.

(** X11.  The entries of an archive whose names do not end in ".pptx",
    whatever the case of the letters, do not count: the batch ends in
    the same state - rows, names seen and messages - without them; an
    archive with no other entries is as good as no archive. *)
Theorem X11_other_entries :
  (forall ups entries,
     process_files ups (Some (Zip entries))
     = process_files ups
         (Some (Zip (List.filter (fun e => is_pptx_name (fst e)) entries))))
  /\ (forall ups entries,
        Forall (fun e => is_pptx_name (fst e) = false) entries ->
        process_files ups (Some (Zip entries)) = process_files ups None).
Proof.
  assert (Hdecks : forall ups entries,
            process_files ups (Some (Zip entries))
            = process_files ups
                (Some (Zip (List.filter (fun e => is_pptx_name (fst e)) entries)))).
  { intros ups entries. unfold process_files. cbv zeta.
    rewrite archive_skips_others, namelist_filter.
    apply fold_left_ext. intros st nm. symmetry. apply zip_step_decks. }
  split; [exact Hdecks|].
  intros ups entries Hall. rewrite Hdecks.
  replace (List.filter (fun e => is_pptx_name (fst e)) entries)
    with (@nil (str * bytes)); [reflexivity|].
  symmetry. induction Hall as [|e entries He _ IH]; [reflexivity|].
  simpl. now rewrite He.
Qed.

End BatchInvariants.

(** ** Percentages with more than one point *)

Section TwoPoints.
Context `{UnicodeData}.

Lemma point_or_digit_plain c :
  point_or_digit c = true ->
  ((c < 0x80)%N /\ c <> UNDERSCORE /\ Py_ISSPACE c = false)
  /\ Py_UNICODE_ISSPACE c = false /\ c <> PERCENT.
Proof.
  unfold point_or_digit, is_ascii_digit, Py_ISSPACE, Py_UNICODE_ISSPACE,
    UNDERSCORE, PERCENT, DOT.
  intros Hc. char_cases; cbn [andb orb] in Hc |- *; try discriminate;
    repeat split; lia.
Qed.

(** On a plain ASCII string [float] is the number parser, and the number
    has to fill the string. *)
Lemma PyFloat_plain_eq s :
  s <> [] ->
  Forall (fun c => (c < 0x80)%N /\ c <> UNDERSCORE /\ Py_ISSPACE c = false) s ->
  PyFloat_FromString s
  = match ascii_strtod s with
    | Some (x, []) => Ok x
    | _ => Raise ValueError
    end.
Proof.
  intros Hne Hs. unfold PyFloat_FromString.
  rewrite transform_ascii by (eapply Forall_impl; [exact Hs|]; simpl; tauto).
  rewrite no_underscore by (eapply Forall_impl; [exact Hs|]; simpl; tauto).
  destruct (no_space_clean s) as [H1 H2];
    [eapply Forall_impl; [exact Hs|]; simpl; tauto|].
  unfold starts_clean_ascii, ends_clean_ascii, float_from_string_inner in *.
  rewrite (dropwhile_clean Py_ISSPACE s) by (destruct s; [congruence | exact H1]).
  destruct s as [|c s']; [congruence|].
  rewrite (dropwhile_clean Py_ISSPACE (rev (c :: s'))) by exact H2.
  now rewrite rev_involutive.
Qed.

Lemma parse_sign_plain c s :
  point_or_digit c = true -> parse_sign (c :: s) = (false, c :: s).
Proof.
  unfold point_or_digit, is_ascii_digit, parse_sign, MINUS, PLUS, DOT.
  intros Hc. char_cases; cbn [andb orb] in Hc; try discriminate; reflexivity.
Qed.

(** The number parser stops at a second point. *)
Lemma dg_strtod_two_points ip mid rest :
  Forall (fun c => is_ascii_digit c = true) ip ->
  Forall (fun c => is_ascii_digit c = true) mid ->
  match dg_strtod (ip ++ DOT :: mid ++ DOT :: rest) with
  | Some (_, r) => r = DOT :: rest
  | None => ip = [] /\ mid = []
  end.
Proof.
  intros Hip Hmid. unfold dg_strtod.
  assert (Hs : parse_sign (ip ++ DOT :: mid ++ DOT :: rest)
               = (false, ip ++ DOT :: mid ++ DOT :: rest)).
  { destruct Hip as [|d ip' Hd _]; simpl app; apply parse_sign_plain;
      unfold point_or_digit; [reflexivity | now rewrite Hd]. }
  rewrite Hs.
  destruct (takewhile_app_stop is_ascii_digit ip DOT (mid ++ DOT :: rest) Hip eq_refl)
    as [-> ->].
  unfold parse_fraction. rewrite N.eqb_refl.
  destruct (takewhile_app_stop is_ascii_digit mid DOT rest Hmid eq_refl)
    as [-> ->].
  destruct (ip ++ mid) as [|d ds] eqn:E.
  - now apply app_eq_nil in E.
  - reflexivity.
Qed.

(** X12.  A percentage with two points or more, which the patterns do
    capture, is no number: [parse_percent] gives [None] for it. *)
Theorem X12_two_points :
  forall ip mid rest,
    Forall (fun c => is_ascii_digit c = true) ip ->
    Forall (fun c => is_ascii_digit c = true) mid ->
    Forall (fun c => point_or_digit c = true) rest ->
    parse_percent (Some (ip ++ DOT :: mid ++ DOT :: rest ++ [PERCENT])) = Ok None.
Proof.
  intros ip mid rest Hip Hmid Hrest.
  set (body := ip ++ DOT :: mid ++ DOT :: rest).
  assert (Hg : ip ++ DOT :: mid ++ DOT :: rest ++ [PERCENT] = body ++ [PERCENT]).
  { unfold body. rewrite <- !app_assoc. simpl. rewrite <- !app_assoc. reflexivity. }
  assert (Hbody : Forall (fun c => point_or_digit c = true) body).
  { assert (Hd : forall l, Forall (fun c => is_ascii_digit c = true) l ->
                          Forall (fun c => point_or_digit c = true) l).
    { intros l Hl. eapply Forall_impl; [exact Hl|].
      intros c Hc. unfold point_or_digit. now rewrite Hc. }
    unfold body. apply Forall_app. split; [now apply Hd|].
    constructor; [reflexivity|]. apply Forall_app. split; [now apply Hd|].
    constructor; [reflexivity | exact Hrest]. }
  assert (Hne : body <> []) by (unfold body; destruct ip; discriminate).
  rewrite Hg. unfold parse_percent. simpl truthy_opt. simpl default.
  replace (truthy (body ++ [PERCENT])) with true
    by (destruct body; [congruence | reflexivity]).
  simpl negb. cbv iota.
  rewrite replace_del_app, replace_del_self, app_nil_r.
  rewrite replace_del_keep
    by (eapply Forall_impl; [exact Hbody|]; intros c Hc;
        now apply point_or_digit_plain in Hc).
  assert (Hsp : Forall (fun c => Py_UNICODE_ISSPACE c = false) body).
  { eapply Forall_impl; [exact Hbody|]. intros c Hc.
    now apply point_or_digit_plain in Hc. }
  rewrite strip_clean.
  - rewrite PyFloat_plain_eq;
      [|exact Hne
       |eapply Forall_impl; [exact Hbody|]; intros c Hc;
        now apply point_or_digit_plain in Hc].
    unfold ascii_strtod, body.
    pose proof (dg_strtod_two_points ip mid rest Hip Hmid) as Hd.
    destruct (dg_strtod (ip ++ DOT :: mid ++ DOT :: rest)) as [[x r]|].
    + subst r. reflexivity.
    + destruct Hd as [-> ->]. reflexivity.
  - destruct Hsp; simpl; auto.
  - unfold ends_clean. apply Forall_rev in Hsp. destruct Hsp; simpl; auto.
Qed.

End TwoPoints.

(** X12 at "1.2.3%". *)
Lemma X12_two_points_witness :
  @parse_percent ascii_unicode_data (Some (of_ascii "1.2.3%")) = Ok None.
Proof.
  apply (@X12_two_points ascii_unicode_data
           (of_ascii "1") (of_ascii "2") (of_ascii "3"));
    repeat constructor.
Defined.

(** ** The table of a batch *)

Section Page.
Context `{UnicodeData}.

Lemma log_no_info ups zip : info_no_files ∉ log (process_files ups zip).
Proof.
  revert ups zip.
  apply (process_files_invariant (fun st => info_no_files ∉ log st)).
  - intros Hin. inversion Hin.
  - intros st f Hst. unfold upload_step.
    destruct (process_pptx_bytes (read f) (name f)); simpl; [exact Hst|].
    intros [Hin|Hin%list_elem_of_singleton]%elem_of_app; [auto | discriminate].
  - intros entries st nm Hst. unfold zip_step.
    destruct (is_pptx_name nm && negb (bool_decide (nm ∈ seen st))); [|exact Hst].
    destruct (process_pptx_bytes (zf_read entries nm) nm); simpl; [exact Hst|].
    intros [Hin|Hin%list_elem_of_singleton]%elem_of_app; [auto | discriminate].
  - intros st Hst. simpl.
    intros [Hin|Hin%list_elem_of_singleton]%elem_of_app; [auto | discriminate].
Qed.

Lemma reconcile_kept (rows : list KPIRow) :
  Forall2 kept rows (List.map reconcile_row (DataFrame rows)).
Proof.
  induction rows as [|row rows IH]; simpl; constructor; [|exact IH].
  unfold kept, reconcile_row, reconciled_rate. simpl.
  repeat split. now intros ->.
Qed.

(** X13.  Lines 106-161, the batch and the making of the table, return
    for every batch; nothing is said of the lines after them.  They leave
    no table exactly when no document gave a row, and exactly then the
    note that no valid file was found.  A table has one row for each row
    collected, in the same order, with the file name and the values of
    the document as they were extracted: the pass assigns the two best-of
    columns and a rate only where the document had none. *)
Theorem X13_page :
  forall ups zip,
    exists pg,
      main ups zip = Ok pg
      /\ (table pg = None <-> rows (process_files ups zip) = [])
      /\ (info_no_files ∈ messages pg <-> table pg = None)
      /\ (forall df, table pg = Some df ->
            Forall2 kept (rows (process_files ups zip)) df).
Proof.
  intros ups zip. unfold main. pose proof (log_no_info ups zip) as Hlog.
  destruct (rows (process_files ups zip)) as [|row rest] eqn:E.
  - eexists. split; [reflexivity|]. simpl. repeat split; try discriminate.
    intros _. apply elem_of_app. right. apply list_elem_of_here.
  - rewrite derive_map. eexists. split; [reflexivity|]. simpl.
    repeat split; try discriminate; try contradiction.
    intros df [= <-]. apply (reconcile_kept (row :: rest)).
Qed.

Lemma infer_rate_fresh row r :
  DataFrame [row] = [r] ->
  infer_rate r = if notnull (Achievement_Rate row)
                 then Ok (Achievement_Rate row) else Raise KeyError.
Proof.
  intros [= <-]. unfold infer_rate. simpl.
  now destruct (notnull (Achievement_Rate row)).
Qed.

(** X14.  The rate pass reads the two best-of columns of every row that
    has no rate of its own: on a frame that does not have them yet it
    raises [KeyError] at the first such row, and returns the rates as
    they are when every row has one. *)
Theorem X14_rate_needs_columns :
  forall collected : list KPIRow,
    apply_rows infer_rate (DataFrame collected)
    = if forallb (fun row => notnull (Achievement_Rate row)) collected
      then Ok (List.map Achievement_Rate collected)
      else Raise KeyError.
Proof.
  intros collected. induction collected as [|row collected IH]; [reflexivity|].
  unfold DataFrame in IH |- *. cbn [List.map apply_rows forallb].
  erewrite (infer_rate_fresh row) by reflexivity.
  destruct (notnull (Achievement_Rate row)); cbn [mbind result_bind andb];
    [|reflexivity].
  rewrite IH. now destruct (forallb _ collected).
Qed.

End Page.

(** ** A text without digits *)

Section NoDigit.
Context `{UnicodeData}.

(** What a match captures comes from the text. *)
Lemma match_here_from (Q : codepoint -> Prop) its :
  forall s rec acc g,
    Forall Q s -> Forall Q acc ->
    match_here its s rec acc = Some g -> Forall Q g.
Proof.
  induction its as [|it its IH]; intros s rec acc g Hs Hacc.
  - simpl. intros [= <-]. now apply Forall_rev.
  - destruct it as [x|x| |]; simpl.
    + destruct Hs as [|c s' Hc Hs']; [discriminate|].
      destruct (match_single x c); [|discriminate].
      apply IH; [exact Hs'|]. destruct rec; [now constructor | exact Hacc].
    + revert acc Hacc. induction Hs as [|c s' Hc Hs' IHs]; intros acc Hacc.
      * apply IH; [constructor | exact Hacc].
      * destruct (match_single x c); [|apply IH; [now constructor | exact Hacc]].
        match goal with
        | |- match ?m with _ => _ end = _ -> _ => destruct m as [g'|] eqn:Eg
        end; [|apply IH; [now constructor | exact Hacc]].
        intros [= <-]. revert Eg. apply IHs.
        destruct rec; [now constructor | exact Hacc].
    + apply IH; assumption.
    + apply IH; assumption.
Qed.

Lemma search_from (Q : codepoint -> Prop) its s g :
  Forall Q s -> search its s = Some g -> Forall Q g.
Proof.
  induction 1 as [|c s Hc Hs IH]; simpl.
  - destruct (match_here its [] false []) eqn:E; [|discriminate].
    intros [= <-]. revert E. apply match_here_from; constructor.
  - destruct (match_here its (c :: s) false []) eqn:E; [|exact IH].
    intros [= <-]. revert E. apply match_here_from; now constructor.
Qed.

(** Every value of the result map is what some pattern captured. *)
Lemma kpis_source text k g :
  extract_kpis_from_text text !! k = Some g ->
  exists pat, search pat text = Some g.
Proof.
  intros Hk.
  assert (Hkey : k ∈ canonical_keys) by (apply (kpis_keys text); eauto).
  unfold canonical_keys in Hkey. apply elem_of_app in Hkey as [Ho|Hq].
  - rewrite (kpis_lookup_ordinary text k Ho) in Hk. eauto.
  - apply list_elem_of_singleton in Hq as ->. rewrite kpis_lookup_quality in Hk.
    destruct (search (pattern_of "Quality Score") text) as [q|] eqn:Eq; [|eauto].
    injection Hk as ->. eauto.
Qed.

(** A value captured from a text without digits is made of points,
    commas and signs [%]. *)
Lemma kpis_marks text k g :
  Forall (fun c => Py_UNICODE_ISDECIMAL c = false) text ->
  extract_kpis_from_text text !! k = Some g ->
  Forall (fun c => c = DOT \/ c = COMMA \/ c = PERCENT) g.
Proof.
  intros Ht Hk. pose proof (kpis_chars text k g Hk) as Hchars.
  destruct (kpis_source text k g Hk) as [pat Hpat].
  pose proof (search_from _ pat text g Ht Hpat) as Hnd.
  rewrite Forall_forall in Hchars, Hnd. apply Forall_forall. intros c Hc.
  destruct (kpi_char_cases c (Hchars c Hc)) as [Hd|Hm]; [|exact Hm].
  rewrite (Hnd c Hc) in Hd. discriminate.
Qed.

(** [float] refuses a string of points, commas and signs [%]. *)
Lemma PyFloat_marks s :
  Forall (fun c => c = DOT \/ c = COMMA \/ c = PERCENT) s ->
  PyFloat_FromString s = Raise ValueError.
Proof.
  intros Hs. destruct s as [|c s']; [reflexivity|].
  rewrite PyFloat_plain_eq; [|discriminate|].
  - inversion Hs as [|? ? Hc Hs']; subst.
    destruct Hc as [-> | [-> | ->]]; try reflexivity.
    destruct Hs' as [|c2 s'' Hc2 _]; [reflexivity|].
    destruct Hc2 as [-> | [-> | ->]]; reflexivity.
  - eapply Forall_impl; [exact Hs|]. intros x [-> | [-> | ->]];
      repeat split; discriminate.
Qed.

Lemma parse_percent_marks v :
  (forall g, v = Some g -> Forall (fun c => c = DOT \/ c = COMMA \/ c = PERCENT) g) ->
  parse_percent v = Ok None.
Proof.
  intros Hv. unfold parse_percent. destruct (negb (truthy_opt v)); [reflexivity|].
  rewrite PyFloat_marks; [reflexivity|].
  destruct v as [g|]; simpl default; [|constructor].
  specialize (Hv g eq_refl). rewrite Forall_forall in Hv.
  apply Forall_forall. intros c Hc. apply Hv, list_elem_of_In.
  apply list_elem_of_In, strip_subset, replace_del_In in Hc. tauto.
Qed.

Lemma parse_currency_marks v :
  (forall g, v = Some g -> Forall (fun c => c = DOT \/ c = COMMA \/ c = PERCENT) g) ->
  parse_currency v = Ok None.
Proof.
  intros Hv. unfold parse_currency. destruct (negb (truthy_opt v)); [reflexivity|].
  rewrite PyFloat_marks; [reflexivity|].
  destruct v as [g|]; simpl default; [|constructor].
  specialize (Hv g eq_refl). rewrite Forall_forall in Hv.
  apply Forall_forall. intros c Hc. apply Hv, list_elem_of_In.
  apply list_elem_of_In, replace_del_In in Hc as [Hc _].
  apply replace_del_In in Hc. tauto.
Qed.

(** X15.  A deck whose text has no decimal digit gives the row with the
    file name and no value: whatever the patterns capture in it - a point
    before a sign [%], a comma - is no number. *)
Theorem X15_no_digit_no_value :
  forall prs nm,
    Forall (fun c => Py_UNICODE_ISDECIMAL c = false) (full_text_of prs) ->
    process_pptx_bytes (Pptx prs) nm = Ok (blank_row nm).
Proof.
  intros prs nm Ht. rewrite process_loaded. f_equal.
  unfold row_of_deck, blank_row. cbv zeta.
  rewrite !parse_percent_marks, !parse_currency_marks;
    try (intros g Hg; exact (kpis_marks _ _ _ Ht Hg)).
  reflexivity.
Qed.

End NoDigit.

(** X15 at a deck that reads "Achievement Rate: .%", where the pattern
    captures ".%". *)
Lemma X15_no_digit_no_value_witness :
  @process_pptx_bytes ascii_unicode_data
    (Pptx (deck_of_text (of_ascii "Achievement Rate: .%"))) a_pptx
  = Ok (blank_row a_pptx).
Proof.
  apply (@X15_no_digit_no_value ascii_unicode_data).
  vm_compute. repeat constructor.
Defined.
